(** * palette-tokens core (src/lib/core.js): a shallow embedding and its properties

    The JavaScript module derives tonal scales from a primary colour, maps
    semantic roles onto shades and audits WCAG contrast.  JavaScript numbers
    are IEEE-754 binary64 values, so they are embedded as Rocq's primitive
    floats; objects used as maps are association lists in insertion order;
    a [TypeError] raised by a property read on [undefined]/[null] is an
    explicit outcome. *)

From Stdlib Require Import ZArith List String Ascii Bool Lia.
From Stdlib Require Import Floats.
Import ListNotations.

Local Open Scope string_scope.
Local Open Scope Z_scope.

Set Warnings "-inexact-float".

(* ================================================================== *)
(** ** The JavaScript runtime the module relies on                     *)
(* ================================================================== *)

Module Js.

(** *** Completions: a normal value or a thrown exception *)

Inductive error : Type :=
| TypeError
| AdapterError.

Inductive completion (A : Type) : Type :=
| Ok (a : A)
| Throw (e : error).

Arguments Ok {A} a.
Arguments Throw {A} e.

Definition bind {A B} (m : completion A) (k : A -> completion B) : completion B :=
  match m with
  | Ok a => k a
  | Throw e => Throw e
  end.

Definition is_ok {A} (m : completion A) : bool :=
  match m with Ok _ => true | Throw _ => false end.

(** [for (const x of xs) body]: the loop state is threaded through the
    iterations and the first exception ends the loop. *)
Fixpoint for_of {A S} (xs : list A) (body : S -> A -> completion S) (s : S)
  : completion S :=
  match xs with
  | [] => Ok s
  | x :: xs' => bind (body s x) (for_of xs' body)
  end.

(** *** Values that flow through the module: a string or [undefined] *)

Inductive value : Type :=
| Undefined
| Str (s : string).

(** ToBoolean on such a value: [undefined] and the empty string are falsy. *)
Definition truthy (v : value) : bool :=
  match v with
  | Undefined => false
  | Str EmptyString => false
  | Str (String _ _) => true
  end.

(** *** Objects used as maps: keys in insertion order

    JavaScript enumerates integer-like keys in ascending order before the
    other keys; the only integer-like keys of the module are the shade
    keys, always written in ascending order, so insertion order is the
    enumeration order throughout. *)

Definition object (V : Type) : Type := list (string * V).

Fixpoint lookup {V} (o : object V) (k : string) : option V :=
  match o with
  | [] => None
  | (k', v) :: o' => if String.eqb k' k then Some v else lookup o' k
  end.

(** [o[k] = v]: overwrite in place when the key exists, else append. *)
Fixpoint assign {V} (o : object V) (k : string) (v : V) : object V :=
  match o with
  | [] => [(k, v)]
  | (k', v') :: o' =>
      if String.eqb k' k then (k', v) :: o' else (k', v') :: assign o' k v
  end.

Definition keys {V} (o : object V) : list string := map fst o.

(** [o[k]] where the object holds strings: a missing key reads [undefined].
    Own properties only: the read does not continue into [Object.prototype],
    so it is the JavaScript read for every key that is not a property name
    of [Object.prototype] ([prototype_keys] below), as the shade keys, the
    role names and the audit keys are. *)
Definition get (o : object value) (k : string) : value :=
  match lookup o k with
  | Some v => v
  | None => Undefined
  end.

(** The property names of [Object.prototype], which every object literal
    inherits. *)
Definition prototype_keys : list string :=
  ["constructor"; "__proto__"; "hasOwnProperty"; "isPrototypeOf";
   "propertyIsEnumerable"; "toLocaleString"; "toString"; "valueOf";
   "__defineGetter__"; "__defineSetter__"; "__lookupGetter__";
   "__lookupSetter__"].

(** *** Numbers *)

Definition number : Type := float.

(** The Number nearest to an integer (round to nearest, ties to even). *)
Definition of_Z (n : Z) : number :=
  SF2Prim (binary_normalize prec emax n 0 false).

(** [Math.max] / [Math.min] on two arguments: NaN is contagious and
    [+0] counts as larger than [-0]. *)
Definition is_neg_zero (x : number) : bool :=
  match Prim2SF x with
  | S754_zero true => true
  | _ => false
  end.

Definition Math_max (x y : number) : number :=
  if (is_nan x || is_nan y)%bool then nan
  else if (x <? y)%float then y
  else if (y <? x)%float then x
  else if is_neg_zero x then y else x.

Definition Math_min (x y : number) : number :=
  if (is_nan x || is_nan y)%bool then nan
  else if (x <? y)%float then x
  else if (y <? x)%float then y
  else if is_neg_zero x then x else y.

(** [Math.round]: the nearest integral Number, ties towards +infinity;
    results in (-0.5, 0) and at -0.5 are [-0]. *)
Definition Math_round (x : number) : number :=
  match Prim2SF x with
  | S754_finite s m e =>
      if 0 <=? e then x
      else
        let sm := if s then Z.neg m else Z.pos m in
        let n := (2 * sm + 2 ^ (- e)) / 2 ^ (1 - e) in
        if n =? 0 then (if s then neg_zero else zero) else of_Z n
  | _ => x
  end.

(** The remainder operator [n % d] on Numbers (exact, sign of the dividend). *)
Definition rem (n d : number) : number :=
  match Prim2SF n, Prim2SF d with
  | S754_nan, _ | _, S754_nan => nan
  | S754_infinity _, _ => nan
  | _, S754_infinity _ => n
  | _, S754_zero _ => nan
  | S754_zero _, _ => n
  | S754_finite sn mn en, S754_finite _ md ed =>
      let e := Z.min en ed in
      let r := (Z.pos mn * 2 ^ (en - e)) mod (Z.pos md * 2 ^ (ed - e)) in
      if r =? 0 then (if sn then neg_zero else zero)
      else SF2Prim (binary_normalize prec emax (if sn then - r else r) e false)
  end.

(** [x || 0] where [x] is a Number or [undefined]: [undefined], NaN and
    both zeros are falsy and give [0]. *)
Definition or_zero (x : option number) : number :=
  match x with
  | None => 0%float
  | Some v => if (is_nan v || is_zero v)%bool then 0%float else v
  end.

(** *** Strings (sequences of code units; the module only handles code
    units below 256) *)

(** [s.slice(a, b)] for non-negative indices. *)
Definition slice (s : string) (a b : nat) : string :=
  substring a (b - a) s.

(** The white space and line terminators [parseInt] trims, among the code
    units below 256: TAB, LF, VT, FF, CR, SP, NBSP. *)
Definition is_white_space (c : ascii) : bool :=
  let n := nat_of_ascii c in
  existsb (Nat.eqb n) [9; 10; 11; 12; 13; 32; 160]%nat.

Fixpoint trim_start (s : string) : string :=
  match s with
  | String c s' => if is_white_space c then trim_start s' else s
  | EmptyString => s
  end.

Definition hex_digit (c : ascii) : option Z :=
  let n := Z.of_nat (nat_of_ascii c) in
  if (48 <=? n) && (n <=? 57) then Some (n - 48)
  else if (97 <=? n) && (n <=? 102) then Some (n - 87)
  else if (65 <=? n) && (n <=? 70) then Some (n - 55)
  else None.

(** Value of the longest prefix of hexadecimal digits, [None] when the
    prefix is empty; [acc] carries the digits read so far. *)
Fixpoint hex_prefix (s : string) (acc : option Z) : option Z :=
  match s with
  | String c s' =>
      match hex_digit c with
      | Some d =>
          hex_prefix s' (Some (16 * match acc with Some a => a | None => 0 end + d))
      | None => acc
      end
  | EmptyString => acc
  end.

(** [parseInt(s, 16)]: trim, read a sign, skip a [0x]/[0X] prefix, read the
    longest run of digits; no digit gives NaN, a negative zero stays [-0]. *)
Definition parseInt16 (s : string) : number :=
  let s1 := trim_start s in
  let '(neg, s2) :=
    match s1 with
    | String "-" r => (true, r)
    | String "+" r => (false, r)
    | _ => (false, s1)
    end in
  let s3 :=
    match s2 with
    | String "0" (String "x" r) => r
    | String "0" (String "X" r) => r
    | _ => s2
    end in
  match hex_prefix s3 None with
  | None => nan
  | Some n =>
      if n =? 0 then (if neg then neg_zero else zero)
      else of_Z (if neg then - n else n)
  end.

(** *** Arbitrary argument values *)

(** A value of any type, as a caller may pass it; objects are not told
    apart, no comparison below looks into them. *)
Inductive any : Type :=
| Any_undefined
| Any_null
| Any_boolean (b : bool)
| Any_number (n : number)
| Any_string (s : string)
| Any_object.

(** [x === lit] for a string literal [lit]: strict equality holds for that
    very string and for no value of another type. *)
Definition strict_equals_string (x : any) (lit : string) : bool :=
  match x with
  | Any_string s => String.eqb s lit
  | _ => false
  end.

End Js.

Notation "x <- m ;; k" := (Js.bind m (fun x => k))
  (at level 61, m at next level, right associativity).

Local Close Scope Z_scope.
Local Open Scope float_scope.
Local Open Scope list_scope.

(* ================================================================== *)
(** ** Colours as the colour library (culori) represents them          *)
(* ================================================================== *)

Module Culori.

(** A colour object in mode [oklch]; the hue of an achromatic colour is
    [undefined]. *)
Record color : Type := Oklch {
  l : Js.number;
  c : Js.number;
  h : option Js.number
}.

(** A [#rrggbb] string: a hash and six hexadecimal digits. *)
Definition is_hex_digit (ch : ascii) : bool :=
  match Js.hex_digit ch with Some _ => true | None => false end.

Definition is_hex (s : string) : bool :=
  match s with
  | String "#" (String r1 (String r2 (String g1 (String g2
      (String b1 (String b2 EmptyString)))))) =>
      forallb is_hex_digit [r1; r2; g1; g2; b1; b2]
  | _ => false
  end.

Definition byte_of (hi lo : ascii) : option Z :=
  match Js.hex_digit hi, Js.hex_digit lo with
  | Some a, Some b => Some (16 * a + b)%Z
  | _, _ => None
  end.

(** The red, green and blue channels (0..255) a [#rrggbb] string denotes. *)
Definition channels (s : string) : option (Z * Z * Z) :=
  match s with
  | String "#" (String r1 (String r2 (String g1 (String g2
      (String b1 (String b2 EmptyString)))))) =>
      match byte_of r1 r2, byte_of g1 g2, byte_of b1 b2 with
      | Some r, Some g, Some b => Some (r, g, b)
      | _, _, _ => None
      end
  | _ => None
  end.

End Culori.

(* ================================================================== *)
(** ** Deterministic stand-ins for the collaborators                   *)
(* ================================================================== *)

(** Small executable collaborators, used to run the module on concrete
    inputs.  They are not the libraries: every theorem below holds for
    arbitrary collaborators (under the stated contracts). *)
Module Fake.

(** Reads [#rrggbb] into its three channels. *)
Definition parse (s : string) : option (Z * Z * Z) := Culori.channels s.

(** A crude lightness/chroma/hue reading of the channels; greys have no hue. *)
Definition oklch (rgb : Z * Z * Z) : Culori.color :=
  let '(r, g, b) := rgb in
  let hi := Z.max r (Z.max g b) in
  let lo := Z.min r (Z.min g b) in
  Culori.Oklch (Js.of_Z (r + g + b) / 765) (Js.of_Z (hi - lo) / 640)
    (if (hi =? lo)%Z then None else Some (Js.of_Z ((r + 3 * g + 5 * b) mod 360))).

(** The first entry whose threshold the lightness reaches. *)
Fixpoint pick (x : Js.number) (table : list (Js.number * string)) (dflt : string)
  : string :=
  match table with
  | [] => dflt
  | (t, s) :: table' => if t <=? x then s else pick x table' dflt
  end.

Definition slate : list (Js.number * string) :=
  [ (0.95, "#f8fafc"); (0.9, "#f1f5f9"); (0.8, "#e2e8f0"); (0.7, "#cbd5e1");
    (0.6, "#94a3b8"); (0.5, "#64748b"); (0.4, "#475569"); (0.3, "#334155");
    (0.2, "#1e293b"); (0.1, "#0f172a") ].

Definition formatHex (col : Culori.color) : string :=
  pick (Culori.l col) slate "#020617".

Definition ramp : Js.object Culori.color :=
  [ ("50", Culori.Oklch 0.97 0.01 (Some 250)); ("100", Culori.Oklch 0.92 0.02 (Some 250));
    ("200", Culori.Oklch 0.85 0.03 (Some 250)); ("300", Culori.Oklch 0.75 0.04 (Some 250));
    ("400", Culori.Oklch 0.65 0.05 (Some 250)); ("500", Culori.Oklch 0.55 0.05 (Some 250));
    ("600", Culori.Oklch 0.45 0.05 (Some 250)); ("700", Culori.Oklch 0.35 0.04 (Some 250));
    ("800", Culori.Oklch 0.25 0.03 (Some 250)); ("900", Culori.Oklch 0.15 0.02 (Some 250));
    ("950", Culori.Oklch 0.05 0.01 (Some 250)) ].

Definition ditto_generate (hex : string) : Js.completion (Js.object Culori.color) :=
  if Culori.is_hex hex then Js.Ok ramp else Js.Throw Js.AdapterError.

(** Fifth root by Newton's iteration, started at [1]. *)
Fixpoint root5 (n : nat) (a y : Js.number) : Js.number :=
  match n with
  | O => y
  | S n' => root5 n' a ((4 * y + a / (y * y * y * y)) / 5)
  end.

(** Stands in for [x ** 2.4] (the only exponent the module uses):
    [x^2 * (x^2)^(1/5)]. *)
Definition pow (x y : Js.number) : Js.number :=
  x * x * root5 80 (x * x) 1.

(** Sample data. *)

(** A hex map with every shade. *)
Definition full_scale : Js.object Js.value :=
  [ ("50", Js.Str "#f8fafc"); ("100", Js.Str "#f1f5f9"); ("200", Js.Str "#e2e8f0");
    ("300", Js.Str "#cbd5e1"); ("400", Js.Str "#94a3b8"); ("500", Js.Str "#64748b");
    ("600", Js.Str "#475569"); ("700", Js.Str "#334155"); ("800", Js.Str "#1e293b");
    ("900", Js.Str "#0f172a"); ("950", Js.Str "#020617") ].

(** The same map without its shade 50. *)
Definition sparse_scale : Js.object Js.value := tl full_scale.

(** Light tokens whose text/background contrast is just below 4.5. *)
Definition light_tokens : Js.object Js.value :=
  [ ("bg", Js.Str "#ffffff"); ("surface", Js.Str "#f1f5f9");
    ("border", Js.Str "#e2e8f0"); ("text-muted", Js.Str "#64748b");
    ("text", Js.Str "#3973dd"); ("primary", Js.Str "#64748b");
    ("secondary", Js.Str "#e2e8f0") ].

Definition dark_tokens : Js.object Js.value :=
  [ ("bg", Js.Str "#0f172a"); ("surface", Js.Str "#1e293b");
    ("border", Js.Str "#334155"); ("text-muted", Js.Str "#94a3b8");
    ("text", Js.Str "#f8fafc"); ("primary", Js.Str "#475569");
    ("primary-text", Js.Str "#94a3b8"); ("secondary", Js.Str "#1e293b") ].

End Fake.

(* ================================================================== *)
(** ** The module                                                      *)
(* ================================================================== *)

Definition SHADE_KEYS : list string :=
  ["50"; "100"; "200"; "300"; "400"; "500"; "600"; "700"; "800"; "900"; "950"].

(** A hex map: shade (or role) to hex string; a slot may hold [undefined]. *)
Definition hexmap : Type := Js.object Js.value.

(** Stand-ins that tell hues apart: the formatter answers by the quadrant
    of the hue, and the ramp of a seed repeats the seed's own colour. *)
Module Hued.

Definition formatHex (col : Culori.color) : string :=
  match Culori.h col with
  | None => "#808080"
  | Some x =>
      if x <? 90 then "#ff0000"
      else if x <? 180 then "#00ff00"
      else if x <? 270 then "#0000ff"
      else "#ff00ff"
  end.

Definition ditto_generate (hex : string) : Js.completion (Js.object Culori.color) :=
  match Culori.channels hex with
  | Some rgb => Js.Ok (map (fun k => (k, Fake.oklch rgb)) SHADE_KEYS)
  | None => Js.Throw Js.AdapterError
  end.

(** The hex map whose eleven shades all hold [hex]. *)
Definition flat (hex : string) : hexmap :=
  map (fun k => (k, Js.Str hex)) SHADE_KEYS.

End Hued.

Section Core.

(** The colour-science collaborators, imported from [culori] and
    [dittotones].  [parse] gives [undefined] ([None]) on a string it cannot
    read and the converter [oklch] passes [undefined] through;
    [formatHex] serialises a colour object and passes [undefined] through;
    [ditto_generate hex] stands for [ditto.generate(hex).scale], which may
    throw. *)
Context {parsed : Type}.
Variable parse : string -> option parsed.
Variable oklch : parsed -> Culori.color.
Variable formatHex : Culori.color -> string.
Variable ditto_generate : string -> Js.completion (Js.object Culori.color).

(** [Math.pow] (the [**] operator): the language leaves its results
    implementation-approximated, so it is a parameter as well. *)
Variable Math_pow : Js.number -> Js.number -> Js.number.

(** *** Conversion helpers and scale generation *)

Definition formatHex_opt (x : option Culori.color) : Js.value :=
  match x with
  | Some col => Js.Str (formatHex col)
  | None => Js.Undefined
  end.

(** Reading a field of [oklch(parse(hex))]: a [TypeError] when the string
    did not parse. *)
Definition oklch_parse (hex : string) : Js.completion Culori.color :=
  match parse hex with
  | Some col => Js.Ok (oklch col)
  | None => Js.Throw Js.TypeError
  end.

Definition hueToHex (hue : Js.number) : string :=
  formatHex (Culori.Oklch 0.55 0.2 (Some hue)).

Definition scaleToHexMap (scale : Js.object Culori.color) : hexmap :=
  fold_left
    (fun out shade => Js.assign out shade (formatHex_opt (Js.lookup scale shade)))
    SHADE_KEYS [].

Definition generateColorScale (primaryHex : string) : Js.completion hexmap :=
  scale <- ditto_generate primaryHex ;;
  Js.Ok (scaleToHexMap scale).

Definition generateNeutralScale (primaryHex : string) : Js.completion hexmap :=
  p <- oklch_parse primaryHex ;;
  let neutralHex :=
    formatHex (Culori.Oklch (Culori.l p)
                 (Js.Math_min (Culori.c p * 0.12) 0.02) (Culori.h p)) in
  scale <- ditto_generate neutralHex ;;
  Js.Ok (scaleToHexMap scale).

(** [None] is the [null] returned for the single scheme. *)
Definition generateSecondaryScale (primaryHex scheme : string)
  : Js.completion (option hexmap) :=
  if String.eqb scheme "single" then Js.Ok None
  else
    p <- oklch_parse primaryHex ;;
    let shift := if String.eqb scheme "analogous" then 40 else 180 in
    let newHue := Js.rem (Js.or_zero (Culori.h p) + shift) 360 in
    let secHex :=
      formatHex (Culori.Oklch (Culori.l p) (Culori.c p * 0.85) (Some newHue)) in
    scale <- ditto_generate secHex ;;
    Js.Ok (Some (scaleToHexMap scale)).

(** The same function with its [scheme] argument left untyped, as the
    source has it: the two [===] tests are the only uses of [scheme]. *)
Definition generateSecondaryScale_any (primaryHex : string) (scheme : Js.any)
  : Js.completion (option hexmap) :=
  if Js.strict_equals_string scheme "single" then Js.Ok None
  else
    p <- oklch_parse primaryHex ;;
    let shift := if Js.strict_equals_string scheme "analogous" then 40 else 180 in
    let newHue := Js.rem (Js.or_zero (Culori.h p) + shift) 360 in
    let secHex :=
      formatHex (Culori.Oklch (Culori.l p) (Culori.c p * 0.85) (Some newHue)) in
    scale <- ditto_generate secHex ;;
    Js.Ok (Some (scaleToHexMap scale)).

(** *** Role mapping *)

Record roledef : Type := Role { source : string; shade : string }.

Definition LIGHT_ROLES : Js.object roledef :=
  [ ("bg",         Role "neutral" "50");
    ("surface",    Role "neutral" "100");
    ("border",     Role "neutral" "200");
    ("text-muted", Role "neutral" "500");
    ("text",       Role "neutral" "900");
    ("primary",    Role "color"   "500");
    ("secondary",  Role "accent"  "200") ].

Definition DARK_ROLES : Js.object roledef :=
  [ ("bg",           Role "neutral" "900");
    ("surface",      Role "neutral" "800");
    ("border",       Role "neutral" "700");
    ("text-muted",   Role "neutral" "400");
    ("text",         Role "neutral" "50");
    ("primary",      Role "color"   "600");
    ("primary-text", Role "color"   "400");
    ("secondary",    Role "accent"  "800") ].

(** [scale[shade]] where [scale] may be [null]/[undefined] ([None]): the
    property read then throws. *)
Definition read (scale : option hexmap) (key : string) : Js.completion Js.value :=
  match scale with
  | Some o => Js.Ok (Js.get o key)
  | None => Js.Throw Js.TypeError
  end.

(** [a || b] on scale arguments: an object is truthy, [null] is not. *)
Definition or_else (a b : option hexmap) : option hexmap :=
  match a with
  | Some _ => a
  | None => b
  end.

Definition resolve_role (colorScale neutralScale accentScale : option hexmap)
    (tokens : hexmap) (entry : string * roledef) : Js.completion hexmap :=
  let '(role, def) := entry in
  if String.eqb (source def) "neutral" then
    v <- read neutralScale (shade def) ;; Js.Ok (Js.assign tokens role v)
  else if String.eqb (source def) "accent" then
    v <- read accentScale (shade def) ;; Js.Ok (Js.assign tokens role v)
  else
    v <- read colorScale (shade def) ;; Js.Ok (Js.assign tokens role v).

Definition resolveTokens (colorScale neutralScale secondaryScale : option hexmap)
    (dark : bool) : Js.completion hexmap :=
  let roles := if dark then DARK_ROLES else LIGHT_ROLES in
  let accentScale := or_else secondaryScale colorScale in
  Js.for_of roles (resolve_role colorScale neutralScale accentScale) [].

(** *** WCAG *)

Definition toLinear (c : Js.number) : Js.number :=
  if c <=? 0.03928 then c / 12.92 else Math_pow ((c + 0.055) / 1.055) 2.4.

(** [hex.slice] throws a [TypeError] when [hex] is [undefined]. *)
Definition relativeLuminance (hex : Js.value) : Js.completion Js.number :=
  match hex with
  | Js.Undefined => Js.Throw Js.TypeError
  | Js.Str hex =>
      let r := Js.parseInt16 (Js.slice hex 1 3) / 255 in
      let g := Js.parseInt16 (Js.slice hex 3 5) / 255 in
      let b := Js.parseInt16 (Js.slice hex 5 7) / 255 in
      Js.Ok (0.2126 * toLinear r + 0.7152 * toLinear g + 0.0722 * toLinear b)
  end.

Definition contrastRatio (hex1 hex2 : Js.value) : Js.completion Js.number :=
  l1 <- relativeLuminance hex1 ;;
  l2 <- relativeLuminance hex2 ;;
  Js.Ok ((Js.Math_max l1 l2 + 0.05) / (Js.Math_min l1 l2 + 0.05)).

Record entry : Type := Entry { ratio : Js.number; pass : bool }.

Definition wcag_pairs (tokens : hexmap) : list (string * string) :=
  [ ("text", "bg");
    ("text", "surface");
    ("text-muted", "bg");
    ("text-muted", "surface");
    ("primary", "bg");
    ("primary", "surface") ]
  ++ (if Js.truthy (Js.get tokens "primary-text")
      then [("primary-text", "bg"); ("primary-text", "surface")]
      else []).

Definition pair_key (pair : string * string) : string :=
  (fst pair ++ "/" ++ snd pair)%string.

Definition wcag_entry (r : Js.number) : entry :=
  Entry (Js.Math_round (r * 100) / 100) (4.5 <=? r).

Definition check_pair (tokens : hexmap) (wcag : Js.object entry)
    (pair : string * string) : Js.completion (Js.object entry) :=
  r <- contrastRatio (Js.get tokens (fst pair)) (Js.get tokens (snd pair)) ;;
  Js.Ok (Js.assign wcag (pair_key pair) (wcag_entry r)).

Definition checkWCAG (tokens : hexmap) : Js.completion (Js.object entry) :=
  Js.for_of (wcag_pairs tokens) (check_pair tokens) [].

(** *** Main entry *)

Record palette : Type := Palette {
  tokens : hexmap;
  colorScale : hexmap;
  neutralScale : hexmap;
  secondaryScale : option hexmap;
  wcag : Js.object entry
}.

(** [scheme] and [dark] are the options after their defaults
    (["single"], [false]) have been filled in. *)
Definition generatePalette (primaryHex scheme : string) (dark : bool)
  : Js.completion palette :=
  cs <- generateColorScale primaryHex ;;
  ns <- generateNeutralScale primaryHex ;;
  ss <- generateSecondaryScale primaryHex scheme ;;
  tk <- resolveTokens (Some cs) (Some ns) ss dark ;;
  w <- checkWCAG tk ;;
  Js.Ok (Palette tk cs ns ss w).

(* ================================================================== *)
(** ** Properties of the runtime operations                            *)
(* ================================================================== *)

(** *** Objects *)

Lemma lookup_app {V} (o1 o2 : Js.object V) (k : string) :
  Js.lookup (o1 ++ o2) k =
  match Js.lookup o1 k with
  | Some v => Some v
  | None => Js.lookup o2 k
  end.
Proof.
  induction o1 as [|[k1 v1] o1 IH]; simpl; [reflexivity|].
  destruct (String.eqb k1 k); [reflexivity | exact IH].
Qed.

Lemma assign_fresh {V} (o : Js.object V) (k : string) (v : V) :
  Js.lookup o k = None -> Js.assign o k v = o ++ [(k, v)].
Proof.
  induction o as [|[k1 v1] o IH]; simpl; [reflexivity|].
  destruct (String.eqb k1 k); [discriminate|].
  intros Hk. now rewrite IH.
Qed.

Lemma lookup_assign {V} (o : Js.object V) (k k' : string) (v : V) :
  Js.lookup (Js.assign o k v) k' =
  if String.eqb k k' then Some v else Js.lookup o k'.
Proof.
  induction o as [|[k1 v1] o IH]; simpl; [reflexivity|].
  destruct (String.eqb k1 k) eqn:E1; simpl.
  - apply String.eqb_eq in E1. subst k1.
    destruct (String.eqb k k'); reflexivity.
  - destruct (String.eqb k1 k') eqn:E2.
    + apply String.eqb_eq in E2. subst k1.
      rewrite String.eqb_sym, E1. reflexivity.
    + exact IH.
Qed.

Lemma lookup_none_keys {V} (o : Js.object V) (k : string) :
  Js.lookup o k = None <-> ~ In k (Js.keys o).
Proof.
  induction o as [|[k1 v1] o IH]; simpl; [tauto|].
  destruct (String.eqb k1 k) eqn:E.
  - apply String.eqb_eq in E. split; [discriminate | intros H; exfalso; auto].
  - apply String.eqb_neq in E. rewrite IH. tauto.
Qed.

Lemma lookup_map_values {V W} (f : V -> W) (o : Js.object V) (k : string) :
  Js.lookup (map (fun kv => (fst kv, f (snd kv))) o) k =
  option_map f (Js.lookup o k).
Proof.
  induction o as [|[k1 v1] o IH]; simpl; [reflexivity|].
  destruct (String.eqb k1 k); [reflexivity | exact IH].
Qed.

Lemma keys_map_values {V W} (f : V -> W) (o : Js.object V) :
  Js.keys (map (fun kv => (fst kv, f (snd kv))) o) = Js.keys o.
Proof.
  unfold Js.keys. rewrite map_map. reflexivity.
Qed.

(** A loop that binds each key of [xs] once, to a value computed from the
    element alone, appends one slot per element. *)
Lemma for_of_assign {A V} (key : A -> string) (val : A -> V)
    (xs : list A) (o : Js.object V) :
  NoDup (map key xs) ->
  (forall x, In x xs -> Js.lookup o (key x) = None) ->
  Js.for_of xs (fun acc x => Js.Ok (Js.assign acc (key x) (val x))) o =
  Js.Ok (o ++ map (fun x => (key x, val x)) xs).
Proof.
  revert o. induction xs as [|x xs IH]; intros o Hnd Hfresh; simpl.
  - now rewrite app_nil_r.
  - inversion Hnd as [|? ? Hx Hnd']; subst.
    rewrite assign_fresh by (apply Hfresh; now left).
    rewrite IH; trivial.
    + now rewrite <- app_assoc.
    + intros y Hy. rewrite lookup_app, Hfresh by now right.
      simpl. destruct (String.eqb (key x) (key y)) eqn:E; [|reflexivity].
      apply String.eqb_eq in E. exfalso. apply Hx. rewrite E.
      now apply in_map.
Qed.

Lemma for_of_ext {A S} (f g : S -> A -> Js.completion S) (xs : list A) (s : S) :
  (forall s' x, In x xs -> f s' x = g s' x) ->
  Js.for_of xs f s = Js.for_of xs g s.
Proof.
  revert s. induction xs as [|x xs IH]; intros s H; simpl; [reflexivity|].
  rewrite H by now left.
  destruct (g s x); simpl; [|reflexivity].
  apply IH. intros; apply H; now right.
Qed.

(* ================================================================== *)
(** ** The role resolver                                               *)
(* ================================================================== *)

(** The scale a role definition reads from, once the accent scale is known. *)
Definition scale_for (cs ns acc : hexmap) (def : roledef) : hexmap :=
  if String.eqb (source def) "neutral" then ns
  else if String.eqb (source def) "accent" then acc
  else cs.

Definition roles_of (dark : bool) : Js.object roledef :=
  if dark then DARK_ROLES else LIGHT_ROLES.

Definition accent_of (cs : hexmap) (ss : option hexmap) : hexmap :=
  match ss with
  | Some s => s
  | None => cs
  end.

Lemma resolve_role_objects (cs ns acc tk : hexmap) (e : string * roledef) :
  resolve_role (Some cs) (Some ns) (Some acc) tk e =
  Js.Ok (Js.assign tk (fst e)
           (Js.get (scale_for cs ns acc (snd e)) (shade (snd e)))).
Proof.
  destruct e as [role def]. unfold resolve_role, scale_for. simpl.
  destruct (String.eqb (source def) "neutral"); [reflexivity|].
  destruct (String.eqb (source def) "accent"); reflexivity.
Qed.

Lemma roles_nodup (dark : bool) : NoDup (Js.keys (roles_of dark)).
Proof.
  destruct dark; simpl;
    repeat (constructor; [simpl; intuition discriminate|]); constructor.
Qed.

(** On scale objects the resolver cannot throw: it returns one slot per
    role of the selected table, in the table's order, holding whatever the
    scale has under the role's shade. *)
Lemma resolveTokens_objects (cs ns : hexmap) (ss : option hexmap) (dark : bool) :
  resolveTokens (Some cs) (Some ns) ss dark =
  Js.Ok (map (fun e => (fst e, Js.get (scale_for cs ns (accent_of cs ss) (snd e))
                                 (shade (snd e))))
           (roles_of dark)).
Proof.
  unfold resolveTokens. fold (roles_of dark).
  replace (or_else ss (Some cs)) with (Some (accent_of cs ss))
    by (destruct ss; reflexivity).
  rewrite (for_of_ext _
             (fun acc e => Js.Ok (Js.assign acc (fst e)
                (Js.get (scale_for cs ns (accent_of cs ss) (snd e)) (shade (snd e))))))
    by (intros; apply resolve_role_objects).
  rewrite for_of_assign; [reflexivity | apply roles_nodup | reflexivity].
Qed.

(** C3 (as the code has it).  The resolver never fails on a scale that lacks
    a shade: a role whose shade is missing from the scale it reads is bound
    to [undefined], and the resolution completes normally. *)
Theorem resolveTokens_missing_shade_is_undefined
    (cs ns : hexmap) (ss : option hexmap) (dark : bool) :
  exists tk,
    resolveTokens (Some cs) (Some ns) ss dark = Js.Ok tk /\
    forall role def,
      Js.lookup (roles_of dark) role = Some def ->
      Js.lookup (scale_for cs ns (accent_of cs ss) def) (shade def) = None ->
      Js.lookup tk role = Some Js.Undefined.
Proof.
  eexists. split; [apply resolveTokens_objects|].
  intros role def Hrole Hmiss.
  rewrite (lookup_map_values
             (fun d => Js.get (scale_for cs ns (accent_of cs ss) d) (shade d))),
    Hrole.
  simpl. unfold Js.get. now rewrite Hmiss.
Qed.

(** C5.  Without a secondary scale ([null], the single scheme) every
    accent-sourced role reads the colour scale: [secondary] is
    [colorScale["200"]] in light mode and [colorScale["800"]] in dark mode. *)
Theorem resolveTokens_accent_fallback (cs ns : hexmap) (dark : bool) :
  exists tk,
    resolveTokens (Some cs) (Some ns) None dark = Js.Ok tk /\
    Js.get tk "secondary" = Js.get cs (if dark then "800" else "200") /\
    forall role def,
      Js.lookup (roles_of dark) role = Some def ->
      source def = "accent" ->
      Js.get tk role = Js.get cs (shade def).
Proof.
  eexists. split; [apply resolveTokens_objects|].
  split.
  - destruct dark; reflexivity.
  - intros role def Hrole Hsrc. unfold Js.get at 1.
    rewrite (lookup_map_values
               (fun d => Js.get (scale_for cs ns (accent_of cs None) d) (shade d))),
      Hrole.
    simpl. unfold scale_for. now rewrite Hsrc.
Qed.

(** C6.  On any scales the returned token set has exactly the roles of the
    selected table as its keys; [primary-text] is among them in dark mode
    and never in light mode. *)
Theorem resolveTokens_keys (cs ns : hexmap) (ss : option hexmap) (dark : bool) :
  exists tk,
    resolveTokens (Some cs) (Some ns) ss dark = Js.Ok tk /\
    Js.keys tk = Js.keys (if dark then DARK_ROLES else LIGHT_ROLES) /\
    (In "primary-text" (Js.keys tk) <-> dark = true).
Proof.
  eexists. split; [apply resolveTokens_objects|].
  rewrite (keys_map_values
             (fun d => Js.get (scale_for cs ns (accent_of cs ss) d) (shade d))).
  split; [reflexivity|].
  destruct dark; simpl; split; intros H; try reflexivity; try discriminate.
  - tauto.
  - intuition discriminate.
Qed.

(* ================================================================== *)
(** ** Scale generation                                                *)
(* ================================================================== *)

(** *** Zeros and the hue default *)

Lemma is_zero_cases (x : Js.number) :
  is_zero x = true -> x = zero \/ x = neg_zero.
Proof.
  unfold is_zero. rewrite eqb_spec.
  change (Prim2SF zero) with (S754_zero false). intros H.
  rewrite <- (SF2Prim_Prim2SF x).
  destruct (Prim2SF x) as [[|]|[|]| |[|] m e]; try discriminate H; simpl; auto.
Qed.

(** Adding a non-zero number forgets the sign of a zero. *)
Lemma add_zero_sign (s : Js.number) :
  is_zero s = false -> neg_zero + s = zero + s.
Proof.
  unfold is_zero. rewrite eqb_spec.
  change (Prim2SF zero) with (S754_zero false). intros H.
  apply Prim2SF_inj. rewrite !add_spec.
  change (Prim2SF neg_zero) with (S754_zero true).
  change (Prim2SF zero) with (S754_zero false).
  destruct (Prim2SF s) as [[|]|[|]| |[|] m e]; try discriminate H; reflexivity.
Qed.

Lemma or_zero_shift (x s : Js.number) :
  is_nan x = false -> is_zero s = false ->
  Js.or_zero (Some x) + s = x + s.
Proof.
  intros Hnan Hs. unfold Js.or_zero. rewrite Hnan. simpl.
  destruct (is_zero x) eqn:Hz; [|reflexivity].
  destruct (is_zero_cases x Hz) as [-> | ->]; [reflexivity|].
  symmetry. now apply add_zero_sign.
Qed.

(** *** The secondary seed, in the words of the specification *)

(** A missing hue counts as 0. *)
Definition spec_hue (hue : option Js.number) : Js.number :=
  match hue with
  | Some x => x
  | None => 0
  end.

(** Same lightness, chroma scaled by 0.85, hue shifted modulo 360. *)
Definition spec_secondary_seed (p : Culori.color) (shift : Js.number) : Culori.color :=
  Culori.Oklch (Culori.l p) (Culori.c p * 0.85)
    (Some (Js.rem (spec_hue (Culori.h p) + shift) 360)).

(** Synthesising a hex map from a seed colour. *)
Definition synthesize (seed : Culori.color) : Js.completion (option hexmap) :=
  scale <- ditto_generate (formatHex seed) ;;
  Js.Ok (Some (scaleToHexMap scale)).

(** A hue that is present is a number (not NaN). *)
Definition hue_is_number (hue : option Js.number) : Prop :=
  match hue with
  | Some x => is_nan x = false
  | None => True
  end.

Lemma seed_hue (hue : option Js.number) (shift : Js.number) :
  hue_is_number hue -> is_zero shift = false ->
  Js.or_zero hue + shift = spec_hue hue + shift.
Proof.
  destruct hue as [x|]; simpl; intros Hn Hs; [|reflexivity].
  now apply or_zero_shift.
Qed.

(** C1.  For a primary hex that parses, the single scheme yields [null]
    (no scale object), and the analogous and complementary schemes
    synthesise the scale of the seed that keeps the primary's lightness,
    scales its chroma by 0.85 and shifts its hue by 40 resp. 180 modulo
    360, an absent hue counting as 0. *)
Theorem generateSecondaryScale_seed (primaryHex : string) (col : parsed) :
  parse primaryHex = Some col ->
  hue_is_number (Culori.h (oklch col)) ->
  generateSecondaryScale primaryHex "single" = Js.Ok None /\
  generateSecondaryScale primaryHex "analogous" =
    synthesize (spec_secondary_seed (oklch col) 40) /\
  generateSecondaryScale primaryHex "complementary" =
    synthesize (spec_secondary_seed (oklch col) 180).
Proof.
  intros Hparse Hhue.
  unfold generateSecondaryScale, oklch_parse, synthesize, spec_secondary_seed.
  rewrite Hparse. simpl.
  rewrite !seed_hue by (trivial; reflexivity).
  repeat split; reflexivity.
Qed.

Lemma generateSecondaryScale_any_string (primaryHex scheme : string) :
  generateSecondaryScale_any primaryHex (Js.Any_string scheme) =
  generateSecondaryScale primaryHex scheme.
Proof. reflexivity. Qed.

Lemma strict_equals_string_false (x : Js.any) (lit : string) :
  x <> Js.Any_string lit -> Js.strict_equals_string x lit = false.
Proof.
  destruct x as [| | b | n | s |]; simpl; trivial.
  intros H. apply String.eqb_neq. congruence.
Qed.

(** C4.  For every scheme value other than the strings ["single"] and
    ["analogous"], a string the module does not know or a value of any
    other type, the hue shift is 180: the result is the scale synthesised
    from the seed with hue [((p.h || 0) + 180) % 360], which is what the
    call with ["complementary"] gives.  The scheme is never validated: an
    exception is the [TypeError] of a colour that does not parse or one
    the synthesis itself throws. *)
Theorem generateSecondaryScale_unrecognized (primaryHex : string) (scheme : Js.any) :
  scheme <> Js.Any_string "single" -> scheme <> Js.Any_string "analogous" ->
  generateSecondaryScale_any primaryHex scheme =
    (p <- oklch_parse primaryHex ;;
     synthesize
       (Culori.Oklch (Culori.l p) (Culori.c p * 0.85)
          (Some (Js.rem (Js.or_zero (Culori.h p) + 180) 360)))) /\
  generateSecondaryScale_any primaryHex scheme =
    generateSecondaryScale primaryHex "complementary" /\
  (forall e,
     generateSecondaryScale_any primaryHex scheme = Js.Throw e ->
     (parse primaryHex = None /\ e = Js.TypeError) \/
     exists seed, ditto_generate seed = Js.Throw e).
Proof.
  intros H1 H2.
  assert (Hshift : generateSecondaryScale_any primaryHex scheme =
            (p <- oklch_parse primaryHex ;;
             synthesize
               (Culori.Oklch (Culori.l p) (Culori.c p * 0.85)
                  (Some (Js.rem (Js.or_zero (Culori.h p) + 180) 360))))).
  { unfold generateSecondaryScale_any.
    rewrite (strict_equals_string_false scheme "single" H1),
      (strict_equals_string_false scheme "analogous" H2).
    reflexivity. }
  split; [exact Hshift|]. split.
  - rewrite Hshift. reflexivity.
  - intros e He. rewrite Hshift in He. unfold oklch_parse in He.
    destruct (parse primaryHex) as [col|]; simpl in He.
    + right. unfold synthesize in He.
      match type of He with context [ditto_generate ?seed] =>
        exists seed; destruct (ditto_generate seed) as [scale|e'] end;
        simpl in He; congruence.
    + left. split; [reflexivity | congruence].
Qed.

(** *** The shape of the hex maps *)

Lemma scaleToHexMap_slots (scale : Js.object Culori.color) :
  scaleToHexMap scale =
  map (fun k => (k, formatHex_opt (Js.lookup scale k))) SHADE_KEYS.
Proof. reflexivity. Qed.

Lemma scaleToHexMap_keys (scale : Js.object Culori.color) :
  Js.keys (scaleToHexMap scale) = SHADE_KEYS.
Proof. reflexivity. Qed.

(** Exactly the eleven shade keys, each bound to a [#rrggbb] string. *)
Definition tonal_scale (m : hexmap) : Prop :=
  Js.keys m = SHADE_KEYS /\
  forall k, In k SHADE_KEYS ->
    exists x, Js.get m k = Js.Str x /\ Culori.is_hex x = true.

(** A ramp that has every shade. *)
Definition full_ramp (scale : Js.object Culori.color) : Prop :=
  forall k, In k SHADE_KEYS -> Js.lookup scale k <> None.

Section Contracts.

(** What the specification requires of the collaborators: every hex
    colour parses, every colour formats to a hex string, and every hex
    seed yields a ramp with all eleven shades. *)
Hypothesis parse_accepts_hex :
  forall hex, Culori.is_hex hex = true -> parse hex <> None.
Hypothesis formatHex_is_hex :
  forall col, Culori.is_hex (formatHex col) = true.
Hypothesis ditto_generates :
  forall hex, Culori.is_hex hex = true ->
    exists scale, ditto_generate hex = Js.Ok scale /\ full_ramp scale.

Lemma scaleToHexMap_tonal (scale : Js.object Culori.color) :
  full_ramp scale -> tonal_scale (scaleToHexMap scale).
Proof.
  intros Hfull. split; [apply scaleToHexMap_keys|].
  intros k Hk. exists (match Js.lookup scale k with
                       | Some col => formatHex col
                       | None => EmptyString
                       end).
  specialize (Hfull k Hk).
  assert (Hget : Js.get (scaleToHexMap scale) k = formatHex_opt (Js.lookup scale k)).
  { simpl in Hk.
    repeat (destruct Hk as [<- | Hk]; [reflexivity|]). contradiction. }
  rewrite Hget. destruct (Js.lookup scale k) as [col|]; [|congruence].
  simpl. auto.
Qed.

Lemma synthesis_succeeds (seed : Culori.color) :
  exists scale,
    ditto_generate (formatHex seed) = Js.Ok scale /\ full_ramp scale.
Proof. apply ditto_generates, formatHex_is_hex. Qed.

Lemma generateColorScale_tonal (primaryHex : string) :
  Culori.is_hex primaryHex = true ->
  exists m, generateColorScale primaryHex = Js.Ok m /\ tonal_scale m.
Proof.
  intros Hhex. destruct (ditto_generates _ Hhex) as (scale & Hgen & Hfull).
  exists (scaleToHexMap scale). unfold generateColorScale. rewrite Hgen.
  split; [reflexivity | now apply scaleToHexMap_tonal].
Qed.

Lemma generateNeutralScale_tonal (primaryHex : string) :
  Culori.is_hex primaryHex = true ->
  exists m, generateNeutralScale primaryHex = Js.Ok m /\ tonal_scale m.
Proof.
  intros Hhex. unfold generateNeutralScale, oklch_parse.
  destruct (parse primaryHex) as [col|] eqn:Hparse;
    [|now apply parse_accepts_hex in Hhex].
  simpl.
  match goal with |- context [ditto_generate (formatHex ?seed)] =>
    destruct (synthesis_succeeds seed) as (scale & Hgen & Hfull) end.
  exists (scaleToHexMap scale). rewrite Hgen.
  split; [reflexivity | now apply scaleToHexMap_tonal].
Qed.

Lemma generateSecondaryScale_tonal (primaryHex scheme : string) :
  Culori.is_hex primaryHex = true ->
  (scheme = "single" /\ generateSecondaryScale primaryHex scheme = Js.Ok None) \/
  (scheme <> "single" /\
   exists m, generateSecondaryScale primaryHex scheme = Js.Ok (Some m) /\
             tonal_scale m).
Proof.
  intros Hhex. unfold generateSecondaryScale, oklch_parse.
  destruct (String.eqb scheme "single") eqn:Hs.
  - left. apply String.eqb_eq in Hs. now split.
  - right. apply String.eqb_neq in Hs. split; [exact Hs|].
    destruct (parse primaryHex) as [col|] eqn:Hparse;
      [|now apply parse_accepts_hex in Hhex].
    simpl.
    match goal with |- context [ditto_generate (formatHex ?seed)] =>
      destruct (synthesis_succeeds seed) as (scale & Hgen & Hfull) end.
    exists (scaleToHexMap scale). rewrite Hgen.
    split; [reflexivity | now apply scaleToHexMap_tonal].
Qed.


End Contracts.

(* ================================================================== *)
(** ** The contrast auditor                                            *)
(* ================================================================== *)

(** *** Comparison of numbers *)

(** What [SFcompare] says about the converse comparison and about the
    operands it finds equal. *)
Lemma SFcompare_converse (a b : spec_float) :
  match SFcompare a b with
  | None => a = S754_nan \/ b = S754_nan
  | Some Lt => SFcompare b a = Some Gt
  | Some Gt => SFcompare b a = Some Lt
  | Some Eq =>
      SFcompare b a = Some Eq /\
      (a = b \/ exists s1 s2, a = S754_zero s1 /\ b = S754_zero s2)
  end.
Proof.
  destruct a as [s1|s1| |s1 m1 e1], b as [s2|s2| |s2 m2 e2]; simpl; auto;
    try (destruct s1; simpl; auto; fail);
    try (destruct s2; simpl; auto; fail);
    try (destruct s1, s2; simpl; auto; fail).
  - split; [reflexivity|]. right. eauto.
  - change (Pos.compare_cont Eq m1 m2) with (m1 ?= m2)%positive.
    change (Pos.compare_cont Eq m2 m1) with (m2 ?= m1)%positive.
    rewrite (Z.compare_antisym e1 e2), (Pos.compare_antisym m1 m2).
    destruct s1, s2; simpl; auto;
      destruct (e1 ?= e2)%Z eqn:He; simpl; auto;
      destruct (m1 ?= m2)%positive eqn:Hm; simpl; auto.
    all: apply Z.compare_eq in He; apply Pos.compare_eq in Hm; subst; auto.
Qed.

Lemma SFcompare_refl (a : spec_float) :
  a <> S754_nan -> SFcompare a a = Some Eq.
Proof.
  destruct a as [s|s| |s m e]; simpl; intros H; try congruence.
  - now destruct s.
  - change (Pos.compare_cont Eq m m) with (m ?= m)%positive.
    rewrite Z.compare_refl, Pos.compare_refl. now destruct s.
Qed.

Lemma is_nan_spec (x : Js.number) :
  is_nan x = true <-> Prim2SF x = S754_nan.
Proof.
  unfold is_nan. rewrite eqb_spec. unfold SFeqb. split.
  - intros H. destruct (Prim2SF x) as [s|s| |s m e] eqn:E; trivial;
      rewrite SFcompare_refl in H by discriminate; discriminate.
  - intros ->. reflexivity.
Qed.

(** Two numbers neither of which is below the other are the same number,
    or are both zeros. *)
Lemma unordered_numbers (x y : Js.number) :
  is_nan x = false -> is_nan y = false ->
  (x <? y) = false -> (y <? x) = false ->
  x = y \/ exists s1 s2, Prim2SF x = S754_zero s1 /\ Prim2SF y = S754_zero s2.
Proof.
  intros Hx Hy. rewrite !ltb_spec. unfold SFltb.
  pose proof (SFcompare_converse (Prim2SF x) (Prim2SF y)) as H.
  destruct (SFcompare (Prim2SF x) (Prim2SF y)) as [[| |]|].
  - destruct H as [_ [H | H]]; [left; now apply Prim2SF_inj | now right].
  - discriminate.
  - rewrite H. discriminate.
  - destruct H as [H | H]; apply is_nan_spec in H; congruence.
Qed.

Lemma ltb_asym (x y : Js.number) : (x <? y) = true -> (y <? x) = false.
Proof.
  rewrite !ltb_spec. unfold SFltb.
  pose proof (SFcompare_converse (Prim2SF x) (Prim2SF y)) as H.
  destruct (SFcompare (Prim2SF x) (Prim2SF y)) as [[| |]|]; try discriminate.
  now rewrite H.
Qed.

Lemma ltb_not_leb (x y : Js.number) : (x <? y) = true -> (y <=? x) = false.
Proof.
  rewrite ltb_spec, leb_spec. unfold SFltb, SFleb.
  pose proof (SFcompare_converse (Prim2SF x) (Prim2SF y)) as H.
  destruct (SFcompare (Prim2SF x) (Prim2SF y)) as [[| |]|]; try discriminate.
  now rewrite H.
Qed.

Lemma zero_of_sign (x : Js.number) (s : bool) :
  Prim2SF x = S754_zero s -> x = (if s then neg_zero else zero) /\ Js.is_neg_zero x = s.
Proof.
  intros H. split.
  - rewrite <- (SF2Prim_Prim2SF x), H. reflexivity.
  - unfold Js.is_neg_zero. rewrite H. now destruct s.
Qed.

Lemma Math_max_comm (x y : Js.number) : Js.Math_max x y = Js.Math_max y x.
Proof.
  unfold Js.Math_max. rewrite (orb_comm (is_nan y)).
  destruct (is_nan x) eqn:Hx; [reflexivity|].
  destruct (is_nan y) eqn:Hy; [reflexivity|]. simpl.
  destruct (x <? y) eqn:Hxy.
  - now rewrite (ltb_asym x y Hxy).
  - destruct (y <? x) eqn:Hyx; [reflexivity|].
    destruct (unordered_numbers x y Hx Hy Hxy Hyx) as [-> | (s1 & s2 & H1 & H2)].
    + now destruct (Js.is_neg_zero y).
    + destruct (zero_of_sign x s1 H1) as [-> ->], (zero_of_sign y s2 H2) as [-> ->].
      now destruct s1, s2.
Qed.

Lemma Math_min_comm (x y : Js.number) : Js.Math_min x y = Js.Math_min y x.
Proof.
  unfold Js.Math_min. rewrite (orb_comm (is_nan y)).
  destruct (is_nan x) eqn:Hx; [reflexivity|].
  destruct (is_nan y) eqn:Hy; [reflexivity|]. simpl.
  destruct (x <? y) eqn:Hxy.
  - now rewrite (ltb_asym x y Hxy).
  - destruct (y <? x) eqn:Hyx; [reflexivity|].
    destruct (unordered_numbers x y Hx Hy Hxy Hyx) as [-> | (s1 & s2 & H1 & H2)].
    + now destruct (Js.is_neg_zero y).
    + destruct (zero_of_sign x s1 H1) as [-> ->], (zero_of_sign y s2 H2) as [-> ->].
      now destruct s1, s2.
Qed.

(** C9.  The contrast ratio is symmetric: swapping the two colours gives
    the same outcome, the same number or the same exception. *)
Theorem contrastRatio_symmetric (hex1 hex2 : Js.value) :
  contrastRatio hex1 hex2 = contrastRatio hex2 hex1.
Proof.
  unfold contrastRatio.
  destruct (relativeLuminance hex1) as [l1|e1] eqn:H1,
           (relativeLuminance hex2) as [l2|e2] eqn:H2; simpl; try reflexivity.
  - now rewrite Math_max_comm, Math_min_comm.
  - destruct hex1, hex2; simpl in *; congruence.
Qed.

(** *** Decoding the channels *)

Definition all_ascii : list ascii := map ascii_of_nat (seq 0 256).

Lemma in_all_ascii (ch : ascii) : In ch all_ascii.
Proof.
  rewrite <- (ascii_nat_embedding ch). apply in_map, in_seq.
  pose proof (nat_ascii_bounded ch). lia.
Qed.

(** [parseInt] on two hexadecimal digits reads the byte they denote;
    checked on every pair of code units. *)
Definition byte_checked (c1 c2 : ascii) : bool :=
  match Culori.byte_of c1 c2 with
  | Some n =>
      PrimFloat.Leibniz.eqb
        (Js.parseInt16 (String c1 (String c2 EmptyString))) (Js.of_Z n)
  | None => true
  end.

Lemma all_bytes_checked :
  forallb (fun c1 => forallb (byte_checked c1) all_ascii) all_ascii = true.
Proof. vm_compute. reflexivity. Qed.

Lemma parseInt16_byte (c1 c2 : ascii) (n : Z) :
  Culori.byte_of c1 c2 = Some n ->
  Js.parseInt16 (String c1 (String c2 EmptyString)) = Js.of_Z n.
Proof.
  intros H. pose proof all_bytes_checked as Hall.
  rewrite forallb_forall in Hall. specialize (Hall c1 (in_all_ascii c1)).
  rewrite forallb_forall in Hall. specialize (Hall c2 (in_all_ascii c2)).
  unfold byte_checked in Hall. rewrite H in Hall.
  now apply FloatAxioms.Leibniz.eqb_spec.
Qed.

Lemma hex_digit_range (ch : ascii) (d : Z) :
  Js.hex_digit ch = Some d -> (0 <= d <= 15)%Z.
Proof.
  unfold Js.hex_digit.
  set (n := Z.of_nat (nat_of_ascii ch)).
  destruct ((48 <=? n)%Z && (n <=? 57)%Z) eqn:E1;
    [|destruct ((97 <=? n)%Z && (n <=? 102)%Z) eqn:E2;
      [|destruct ((65 <=? n)%Z && (n <=? 70)%Z) eqn:E3; [|discriminate]]];
    intros [= <-];
    match goal with H : (_ && _)%bool = true |- _ =>
      apply andb_true_iff in H; destruct H as [Ha Hb];
      apply Z.leb_le in Ha, Hb end; lia.
Qed.

Lemma byte_of_range (c1 c2 : ascii) (n : Z) :
  Culori.byte_of c1 c2 = Some n -> (0 <= n <= 255)%Z.
Proof.
  unfold Culori.byte_of.
  destruct (Js.hex_digit c1) as [a|] eqn:H1; [|discriminate].
  destruct (Js.hex_digit c2) as [b|] eqn:H2; [|discriminate].
  intros H. assert (n = (16 * a + b)%Z) as -> by congruence.
  apply hex_digit_range in H1, H2. lia.
Qed.

Lemma channels_inv (hex : string) (r g b : Z) :
  Culori.channels hex = Some (r, g, b) ->
  exists r1 r2 g1 g2 b1 b2,
    hex = String "#" (String r1 (String r2 (String g1 (String g2
            (String b1 (String b2 EmptyString)))))) /\
    Culori.byte_of r1 r2 = Some r /\
    Culori.byte_of g1 g2 = Some g /\
    Culori.byte_of b1 b2 = Some b.
Proof.
  destruct hex as [|c0 rest]; [discriminate|].
  destruct c0 as [[] [] [] [] [] [] [] []]; try discriminate.
  destruct rest as [|r1 [|r2 [|g1 [|g2 [|b1 [|b2 [|]]]]]]]; try discriminate.
  simpl.
  destruct (Culori.byte_of r1 r2) as [r'|] eqn:Hr; [|discriminate].
  destruct (Culori.byte_of g1 g2) as [g'|] eqn:Hg; [|discriminate].
  destruct (Culori.byte_of b1 b2) as [b'|] eqn:Hb; [|discriminate].
  intros H. exists r1, r2, g1, g2, b1, b2.
  repeat split; congruence.
Qed.

(** *** Luminance and contrast in the words of the specification *)

(** A channel 0..255 scaled to the unit interval. *)
Definition spec_channel (n : Z) : Js.number := Js.of_Z n / 255.

(** The piecewise sRGB-to-linear transform. *)
Definition spec_linear (ch : Js.number) : Js.number :=
  if ch <=? 0.03928 then ch / 12.92 else Math_pow ((ch + 0.055) / 1.055) 2.4.

Definition spec_luminance (rgb : Z * Z * Z) : Js.number :=
  let '(r, g, b) := rgb in
  0.2126 * spec_linear (spec_channel r)
  + 0.7152 * spec_linear (spec_channel g)
  + 0.0722 * spec_linear (spec_channel b).

Definition spec_contrast (l1 l2 : Js.number) : Js.number :=
  (Js.Math_max l1 l2 + 0.05) / (Js.Math_min l1 l2 + 0.05).

Definition in_unit (x : Js.number) : bool := (0 <=? x) && (x <=? 1).

Definition unit_channels (rgb : Z * Z * Z) : bool :=
  let '(r, g, b) := rgb in
  in_unit (spec_channel r) && in_unit (spec_channel g) && in_unit (spec_channel b).

Lemma all_channels_in_unit :
  forallb (fun n => in_unit (spec_channel (Z.of_nat n))) (seq 0 256) = true.
Proof. vm_compute. reflexivity. Qed.

Lemma spec_channel_in_unit (n : Z) :
  (0 <= n <= 255)%Z -> in_unit (spec_channel n) = true.
Proof.
  intros Hn. pose proof all_channels_in_unit as Hall.
  rewrite forallb_forall in Hall.
  rewrite <- (Z2Nat.id n) by lia. apply Hall, in_seq. lia.
Qed.

Lemma relativeLuminance_hex (hex : string) (rgb : Z * Z * Z) :
  Culori.channels hex = Some rgb ->
  relativeLuminance (Js.Str hex) = Js.Ok (spec_luminance rgb) /\
  unit_channels rgb = true.
Proof.
  destruct rgb as [[r g] b]. intros H.
  destruct (channels_inv hex r g b H) as (r1 & r2 & g1 & g2 & b1 & b2 & -> & Hr & Hg & Hb).
  split.
  - unfold relativeLuminance, Js.slice. simpl substring.
    rewrite (parseInt16_byte r1 r2 r Hr), (parseInt16_byte g1 g2 g Hg),
      (parseInt16_byte b1 b2 b Hb).
    reflexivity.
  - unfold unit_channels.
    rewrite !spec_channel_in_unit by eauto using byte_of_range.
    reflexivity.
Qed.

(** C2.  On two [#rrggbb] strings the contrast ratio is
    [(max(L1,L2) + 0.05) / (min(L1,L2) + 0.05)], each luminance being
    [0.2126 R + 0.7152 G + 0.0722 B] over the linearised channels, and
    every decoded channel lies in the unit interval. *)
Theorem contrastRatio_wcag (hex1 hex2 : string) (rgb1 rgb2 : Z * Z * Z) :
  Culori.channels hex1 = Some rgb1 ->
  Culori.channels hex2 = Some rgb2 ->
  contrastRatio (Js.Str hex1) (Js.Str hex2) =
    Js.Ok (spec_contrast (spec_luminance rgb1) (spec_luminance rgb2)) /\
  unit_channels rgb1 = true /\ unit_channels rgb2 = true.
Proof.
  intros H1 H2.
  destruct (relativeLuminance_hex hex1 rgb1 H1) as [L1 U1].
  destruct (relativeLuminance_hex hex2 rgb2 H2) as [L2 U2].
  unfold contrastRatio. rewrite L1, L2. auto.
Qed.

(** *** The audited pairs *)

Definition base_roles : list string :=
  ["text"; "text-muted"; "primary"; "bg"; "surface"].

Definition base_keys : list string :=
  ["text/bg"; "text/surface"; "text-muted/bg"; "text-muted/surface";
   "primary/bg"; "primary/surface"].

Definition dark_keys : list string :=
  base_keys ++ ["primary-text/bg"; "primary-text/surface"].

(** The role is bound to a string (a hex colour, in a token set). *)
Definition bound_to_string (tk : hexmap) (role : string) : Prop :=
  exists hex, Js.get tk role = Js.Str hex.

(** The ratio of a pair whose two roles are bound to strings. *)
Definition pair_ratio (tk : hexmap) (pair : string * string) : Js.number :=
  match contrastRatio (Js.get tk (fst pair)) (Js.get tk (snd pair)) with
  | Js.Ok r => r
  | Js.Throw _ => nan
  end.

Lemma check_pair_strings (tk : hexmap) (w : Js.object entry) (pair : string * string) :
  bound_to_string tk (fst pair) -> bound_to_string tk (snd pair) ->
  check_pair tk w pair =
  Js.Ok (Js.assign w (pair_key pair) (wcag_entry (pair_ratio tk pair))).
Proof.
  intros [h1 H1] [h2 H2]. unfold check_pair, pair_ratio.
  rewrite H1, H2. reflexivity.
Qed.

Lemma wcag_pairs_cases (tk : hexmap) :
  map pair_key (wcag_pairs tk) =
  if Js.truthy (Js.get tk "primary-text") then dark_keys else base_keys.
Proof.
  unfold wcag_pairs. now destruct (Js.truthy (Js.get tk "primary-text")).
Qed.

Lemma wcag_pairs_roles (tk : hexmap) (pair : string * string) :
  In pair (wcag_pairs tk) ->
  (In (fst pair) base_roles \/
   (fst pair = "primary-text" /\ Js.truthy (Js.get tk "primary-text") = true)) /\
  In (snd pair) base_roles.
Proof.
  unfold wcag_pairs. intros H. apply in_app_or in H. destruct H as [H | H].
  - simpl in H.
    repeat (destruct H as [<- | H]; [simpl; tauto|]). contradiction.
  - destruct (Js.truthy (Js.get tk "primary-text")); simpl in H;
      repeat (destruct H as [<- | H]; [simpl; tauto|]); contradiction.
Qed.

Lemma truthy_is_string (v : Js.value) :
  Js.truthy v = true -> exists hex, v = Js.Str hex.
Proof. destruct v as [|hex]; [discriminate | eauto]. Qed.

(** When the base roles hold strings the audit cannot throw; it returns
    one entry per audited pair, in order. *)
Lemma checkWCAG_strings (tk : hexmap) :
  (forall role, In role base_roles -> bound_to_string tk role) ->
  checkWCAG tk =
  Js.Ok (map (fun pair => (pair_key pair, wcag_entry (pair_ratio tk pair)))
           (wcag_pairs tk)).
Proof.
  intros Hbase. unfold checkWCAG.
  rewrite (for_of_ext _
             (fun w pair => Js.Ok (Js.assign w (pair_key pair)
                                     (wcag_entry (pair_ratio tk pair))))).
  - rewrite for_of_assign; [reflexivity | | reflexivity].
    rewrite wcag_pairs_cases.
    destruct (Js.truthy (Js.get tk "primary-text"));
      repeat (constructor; [simpl; intuition discriminate|]); constructor.
  - intros w pair Hin. apply wcag_pairs_roles in Hin.
    destruct Hin as [[Hfst | [Hfst Htruthy]] Hsnd];
      apply check_pair_strings; auto.
    rewrite Hfst. now apply truthy_is_string.
Qed.

(** C7.  On a token set whose base roles are bound to hex strings the
    audit returns exactly the six base entries when there is no
    [primary-text] role, and exactly eight, the two [primary-text] entries
    added, when the role is bound to a (non-empty) string. *)
Theorem checkWCAG_entries (tk : hexmap) :
  (forall role, In role base_roles -> bound_to_string tk role) ->
  (Js.lookup tk "primary-text" = None ->
   exists w, checkWCAG tk = Js.Ok w /\
             Js.keys w = base_keys /\ List.length w = 6%nat) /\
  (forall hex, Js.get tk "primary-text" = Js.Str hex -> hex <> EmptyString ->
   exists w, checkWCAG tk = Js.Ok w /\
             Js.keys w = dark_keys /\ List.length w = 8%nat).
Proof.
  intros Hbase. rewrite (checkWCAG_strings tk Hbase). split.
  - intros Hnone. eexists. split; [reflexivity|].
    unfold Js.keys. rewrite map_map, length_map. simpl.
    unfold wcag_pairs, Js.get. rewrite Hnone. simpl.
    split; reflexivity.
  - intros hex Hget Hne. eexists. split; [reflexivity|].
    unfold Js.keys. rewrite map_map, length_map. simpl.
    unfold wcag_pairs. rewrite Hget.
    destruct hex; [congruence|]. simpl. split; reflexivity.
Qed.

(** *** Rounding to two decimals *)

Local Open Scope Z_scope.

Lemma digits2_pos_bounds (p : positive) :
  2 ^ (Z.pos (digits2_pos p) - 1) <= Z.pos p < 2 ^ Z.pos (digits2_pos p).
Proof.
  induction p as [p IH|p IH|]; simpl digits2_pos.
  - rewrite Pos2Z.inj_succ. replace (Z.succ (Z.pos (digits2_pos p)) - 1) with (Z.succ (Z.pos (digits2_pos p) - 1)) by lia.
    rewrite !Z.pow_succ_r by lia. lia.
  - rewrite Pos2Z.inj_succ. replace (Z.succ (Z.pos (digits2_pos p)) - 1) with (Z.succ (Z.pos (digits2_pos p) - 1)) by lia.
    rewrite !Z.pow_succ_r by lia. lia.
  - simpl. lia.
Qed.

Lemma digits2_pos_unique (p : positive) (d : Z) :
  2 ^ (d - 1) <= Z.pos p < 2 ^ d -> Z.pos (digits2_pos p) = d.
Proof.
  intros [Hlo Hhi]. destruct (digits2_pos_bounds p) as [Hlo' Hhi'].
  assert (0 < d). { destruct (Z.lt_trichotomy 0 d) as [|[|]]; trivial; subst.
    - simpl in Hhi. lia.
    - rewrite Z.pow_neg_r in Hhi by lia. lia. }
  set (d' := Z.pos (digits2_pos p)) in *.
  assert (d - 1 < d') by (apply (Z.pow_lt_mono_r_iff 2); lia).
  assert (d' - 1 < d) by (apply (Z.pow_lt_mono_r_iff 2); lia).
  lia.
Qed.

Lemma iter_pos_nat {A} (f : A -> A) (p : positive) (x : A) :
  iter_pos f p x = Nat.iter (Pos.to_nat p) f x.
Proof.
  revert x. induction p as [p IH|p IH|]; intros x; simpl iter_pos.
  - rewrite !IH, Pos2Nat.inj_xI. 
    replace (2 * Pos.to_nat p)%nat with (Pos.to_nat p + Pos.to_nat p)%nat by lia.
    rewrite Nat.iter_succ_r, Nat.iter_add. reflexivity.
  - rewrite !IH, Pos2Nat.inj_xO.
    replace (2 * Pos.to_nat p)%nat with (Pos.to_nat p + Pos.to_nat p)%nat by lia.
    rewrite Nat.iter_add. reflexivity.
  - reflexivity.
Qed.

Lemma shr_1_m (mrs : shr_record) :
  0 <= shr_m mrs -> shr_m (shr_1 mrs) = shr_m mrs / 2.
Proof.
  destruct mrs as [m r s]. cbv [shr_1 shr_m]. intros Hm.
  destruct m as [|[p|p|]|p]; cbv [shr_m]; try lia; try reflexivity.
  - rewrite Pos2Z.inj_xI. apply Z.div_unique with 1; lia.
  - rewrite Pos2Z.inj_xO. apply Z.div_unique with 0; lia.
Qed.

Lemma shr_iter_m (n : nat) (mrs : shr_record) :
  0 <= shr_m mrs ->
  shr_m (Nat.iter n shr_1 mrs) = shr_m mrs / 2 ^ Z.of_nat n.
Proof.
  intros Hm. induction n as [|n IH].
  - simpl. now rewrite Z.div_1_r.
  - rewrite Nat2Z.inj_succ, Z.pow_succ_r by lia. simpl Nat.iter.
    rewrite shr_1_m, IH.
    + rewrite Z.div_div by lia. f_equal. lia.
    + rewrite IH. apply Z.div_pos; lia.
Qed.

Lemma round_nearest_even_bounds (q : Z) (l : location) :
  q <= round_nearest_even q l <= q + 1.
Proof.
  destruct l as [|[| |]]; simpl; try lia.
  destruct (Z.even q); lia.
Qed.

(** Rounding a positive mantissa that is [n] bits too long, in the normal
    range: the result keeps the exponent [e + n] and its mantissa is the
    quotient or the quotient plus one. *)
Lemma binary_round_aux_bounds (P n : positive) (e lo hi : Z) :
  Z.pos (digits2_pos P) = prec + Z.pos n ->
  emin <= e + Z.pos n <= emax - prec ->
  2 ^ (prec - 1) <= lo -> hi < 2 ^ prec ->
  lo <= Z.pos P / 2 ^ Z.pos n -> Z.pos P / 2 ^ Z.pos n + 1 <= hi ->
  exists k,
    binary_round_aux prec emax false (Z.pos P) e loc_Exact =
      S754_finite false k (e + Z.pos n) /\
    lo <= Z.pos k <= hi.
Proof.
  intros Hd He Hlo Hhi Hq1 Hq2.
  unfold binary_round_aux, shr_fexp at 1. unfold Zdigits2, shr_record_of_loc.
  rewrite Hd.
  replace (fexp prec emax (prec + Z.pos n + e) - e) with (Z.pos n)
    by (unfold fexp; unfold SpecFloat.emin, prec, emax in *; lia).
  unfold shr. rewrite iter_pos_nat.
  set (mrs := Nat.iter (Pos.to_nat n) shr_1 _).
  assert (Hm : shr_m mrs = Z.pos P / 2 ^ Z.pos n).
  { unfold mrs. rewrite shr_iter_m by (simpl; lia).
    simpl shr_m. now rewrite positive_nat_Z. }
  pose proof (round_nearest_even_bounds (shr_m mrs) (loc_of_shr_record mrs)) as Hk.
  set (k := round_nearest_even (shr_m mrs) (loc_of_shr_record mrs)) in *.
  rewrite Hm in Hk.
  assert (Hpos : 0 < k) by (assert (0 < 2 ^ (prec - 1)) by (apply Z.pow_pos_nonneg; unfold prec; lia); lia).
  destruct k as [|kp|kp] eqn:Ek; try lia.
  exists kp. split; [|lia].
  unfold shr_fexp, Zdigits2, shr_record_of_loc.
  rewrite (digits2_pos_unique kp prec) by (split; lia).
  replace (fexp prec emax (prec + (e + Z.pos n)) - (e + Z.pos n)) with 0
    by (unfold fexp; unfold SpecFloat.emin, prec, emax in *; lia).
  simpl shr. cbv iota beta. simpl shr_m.
  replace (e + Z.pos n <=? emax - prec) with true by (symmetry; apply Z.leb_le; lia).
  reflexivity.
Qed.

Lemma Math_round_fraction (x : Js.number) (m : positive) (e : Z) :
  Prim2SF x = S754_finite false m e -> e < 0 ->
  (2 * Z.pos m + 2 ^ (- e)) / 2 ^ (1 - e) <> 0 ->
  Js.Math_round x = Js.of_Z ((2 * Z.pos m + 2 ^ (- e)) / 2 ^ (1 - e)).
Proof.
  intros Hx He Hn. unfold Js.Math_round. rewrite Hx.
  destruct (0 <=? e) eqn:E; [apply Z.leb_le in E; lia|].
  destruct (_ =? 0) eqn:E0; [apply Z.eqb_eq in E0; contradiction | reflexivity].
Qed.

Lemma Prim2SF_4495 : Prim2SF 4.495%float = S754_finite false 5060920081257595 (-50).
Proof. reflexivity. Qed.
(** The literal [4.495] denotes the least double that is not below the
    real number 4.495. *)
Remark band_lower_end_is_tight :
  1000 * 5060920081257594 < 4495 * 2 ^ 50 <= 1000 * 5060920081257595.
Proof. split; [reflexivity | discriminate]. Qed.

Lemma Prim2SF_45 : Prim2SF 4.5%float = S754_finite false 5066549580791808 (-50).
Proof. reflexivity. Qed.
Lemma Prim2SF_100 : Prim2SF 100%float = S754_finite false 7036874417766400 (-46).
Proof. reflexivity. Qed.

Lemma compare_cont_Eq (p q : positive) :
  PosDef.Pos.compare_cont Eq p q = (p ?= q)%positive.
Proof. reflexivity. Qed.

Lemma band_mantissa (r : Js.number) :
  (4.495 <=? r)%float = true -> (r <? 4.5)%float = true ->
  exists m, Prim2SF r = S754_finite false m (-50) /\
            5060920081257595 <= Z.pos m < 5066549580791808.
Proof.
  rewrite leb_spec, ltb_spec, Prim2SF_4495, Prim2SF_45.
  unfold SFleb, SFltb.
  destruct (Prim2SF r) as [s|s| |s m e]; cbv [SFcompare]; try discriminate;
    try (destruct s; discriminate).
  destruct s; [discriminate|].
  destruct (Z.compare_spec (-50) e) as [<-|Hlt|Hgt]; try discriminate.
  - rewrite Z.compare_refl. intros H1 H2.
    rewrite compare_cont_Eq in H1, H2.
    exists m. split; [reflexivity|]. split.
    + apply Pos2Z.pos_le_pos. intros E. rewrite E in H1. discriminate.
    + apply Pos2Z.pos_lt_pos. unfold Pos.lt.
      destruct (m ?= 5066549580791808)%positive; try discriminate. reflexivity.
  - destruct (Z.compare_spec e (-50)); try discriminate; lia.
Qed.

Lemma times_100_band (r : Js.number) :
  (4.495 <=? r)%float = true -> (r <? 4.5)%float = true ->
  exists k, Prim2SF (r * 100)%float = S754_finite false k (-44) /\
            7907687626964992 <= Z.pos k < 7916483719987200.
Proof.
  intros Hlo Hhi. destruct (band_mantissa r Hlo Hhi) as (m & Hm & Hm1 & Hm2).
  rewrite mul_spec, Hm, Prim2SF_100. unfold SF64mul, SFmul. simpl xorb.
  destruct (binary_round_aux_bounds (m * 7036874417766400) 52 (-50 + -46)
              7907687626964992 7916483719987199) as (k & Hk & Hk1 & Hk2).
  - apply digits2_pos_unique. rewrite Pos2Z.inj_mul.
    change (2 ^ (prec + 52 - 1)) with 20282409603651670423947251286016.
    change (2 ^ (prec + 52)) with 40564819207303340847894502572032. lia.
  - unfold SpecFloat.emin, prec, emax. lia.
  - unfold prec. change (2 ^ (53 - 1)) with 4503599627370496. lia.
  - unfold prec. change (2 ^ 53) with 9007199254740992. lia.
  - apply Z.div_le_lower_bound.
    + apply Z.pow_pos_nonneg; lia.
    + rewrite Pos2Z.inj_mul. change (2 ^ 52) with 4503599627370496. lia.
  - assert (Z.pos (m * 7036874417766400) / 2 ^ 52 < 7916483719987199); [|lia].
    apply Z.div_lt_upper_bound.
    + apply Z.pow_pos_nonneg; lia.
    + rewrite Pos2Z.inj_mul. change (2 ^ 52) with 4503599627370496. lia.
  - exists k. split; [exact Hk | lia].
Qed.

Lemma round_band (r : Js.number) :
  (4.495 <=? r)%float = true -> (r <? 4.5)%float = true ->
  (Js.Math_round (r * 100) / 100)%float = 4.5%float.
Proof.
  intros Hlo Hhi. destruct (times_100_band r Hlo Hhi) as (k & Hk & Hk1 & Hk2).
  assert (Hn : (2 * Z.pos k + 2 ^ (- -44)) / 2 ^ (1 - -44) = 450).
  { symmetry. apply Z.div_unique with (2 * Z.pos k + 2 ^ 44 - 450 * 2 ^ 45).
    - change (2 ^ 44) with 17592186044416. change (2 ^ (1 - -44)) with 35184372088832.
      change (2 ^ 45) with 35184372088832. lia.
    - change (2 ^ (- -44)) with (2 ^ 44). change (2 ^ (1 - -44)) with (2 ^ 45). lia. }
  rewrite (Math_round_fraction _ k (-44) Hk) by (rewrite ?Hn; lia).
  rewrite Hn. reflexivity.
Qed.

Local Close Scope Z_scope.

(** *** What an entry records *)

(** Every slot the audit loop leaves in its result was there before the
    loop or was written for one of the pairs, from that pair's ratio. *)
Lemma check_loop_entries (tk : hexmap) (pairs : list (string * string)) :
  forall w0 w,
    Js.for_of pairs (check_pair tk) w0 = Js.Ok w ->
    forall key en,
      Js.lookup w key = Some en ->
      Js.lookup w0 key = Some en \/
      exists pair r,
        In pair pairs /\ key = pair_key pair /\
        contrastRatio (Js.get tk (fst pair)) (Js.get tk (snd pair)) = Js.Ok r /\
        en = wcag_entry r.
Proof.
  induction pairs as [|pair pairs IH]; intros w0 w Hloop key en Hkey.
  - simpl in Hloop. injection Hloop as <-. now left.
  - simpl in Hloop. unfold check_pair at 1 in Hloop.
    destruct (contrastRatio (Js.get tk (fst pair)) (Js.get tk (snd pair)))
      as [r|err] eqn:Hr; [|discriminate].
    simpl in Hloop.
    destruct (IH _ _ Hloop key en Hkey) as [Hold | (pair' & r' & Hin & Hk & Hr' & He)].
    + rewrite lookup_assign in Hold.
      destruct (String.eqb (pair_key pair) key) eqn:E.
      * apply String.eqb_eq in E. injection Hold as <-.
        right. exists pair, r. simpl. auto.
      * now left.
    + right. exists pair', r'. simpl. auto.
Qed.

(** C10.  Each entry of the audit holds the ratio rounded to two decimals
    and a pass flag computed from the unrounded ratio; so a pair whose
    ratio lies in [[4.495, 4.5)] is reported with ratio 4.5 and does not
    pass. *)
Theorem checkWCAG_pass_ignores_rounding
    (tk : hexmap) (w : Js.object entry) (key : string) (en : entry) :
  checkWCAG tk = Js.Ok w ->
  Js.lookup w key = Some en ->
  exists pair r,
    In pair (wcag_pairs tk) /\ key = pair_key pair /\
    contrastRatio (Js.get tk (fst pair)) (Js.get tk (snd pair)) = Js.Ok r /\
    ratio en = Js.Math_round (r * 100) / 100 /\
    pass en = (4.5 <=? r) /\
    ((4.495 <=? r) = true -> (r <? 4.5) = true ->
     ratio en = 4.5 /\ pass en = false).
Proof.
  intros Hw Hkey.
  destruct (check_loop_entries tk (wcag_pairs tk) [] w Hw key en Hkey)
    as [Hnil | (pair & r & Hin & Hk & Hr & ->)]; [discriminate|].
  exists pair, r. repeat split; trivial; simpl.
  - now apply round_band.
  - now apply ltb_not_leb.
Qed.

(* ================================================================== *)
(** ** The orchestrator                                                *)
(* ================================================================== *)

Lemma lookup_in {V} (o : Js.object V) (k : string) (v : V) :
  Js.lookup o k = Some v -> In (k, v) o.
Proof.
  induction o as [|[k1 v1] o IH]; simpl; [discriminate|].
  destruct (String.eqb k1 k) eqn:E.
  - apply String.eqb_eq in E. intros [= <-]. left. now subst.
  - intros H. right. now apply IH.
Qed.

(** Both role tables only name shades of the fixed key set. *)
Definition shade_known (e : string * roledef) : bool :=
  existsb (String.eqb (shade (snd e))) SHADE_KEYS.

Lemma role_shade_is_a_key (dark : bool) (role : string) (def : roledef) :
  Js.lookup (roles_of dark) role = Some def -> In (shade def) SHADE_KEYS.
Proof.
  intros H. apply lookup_in in H.
  assert (Hall : forallb shade_known (roles_of dark) = true)
    by (destruct dark; reflexivity).
  rewrite forallb_forall in Hall. specialize (Hall _ H).
  unfold shade_known in Hall. apply existsb_exists in Hall.
  destruct Hall as (k & Hk & E). apply String.eqb_eq in E.
  simpl in E. now subst.
Qed.

Lemma scale_for_tonal (cs ns acc : hexmap) (def : roledef) :
  tonal_scale cs -> tonal_scale ns -> tonal_scale acc ->
  tonal_scale (scale_for cs ns acc def).
Proof.
  intros Hcs Hns Hacc. unfold scale_for.
  destruct (String.eqb (source def) "neutral"); trivial.
  now destruct (String.eqb (source def) "accent").
Qed.

(** Resolved against tonal scales, every role holds a hex string. *)
Lemma resolved_token_is_hex (cs ns acc : hexmap) (dark : bool)
    (role : string) (def : roledef) :
  tonal_scale cs -> tonal_scale ns -> tonal_scale acc ->
  Js.lookup (roles_of dark) role = Some def ->
  exists x,
    Js.get (map (fun e => (fst e, Js.get (scale_for cs ns acc (snd e))
                                    (shade (snd e))))
              (roles_of dark)) role = Js.Str x /\
    Culori.is_hex x = true.
Proof.
  intros Hcs Hns Hacc Hrole. unfold Js.get at 1.
  rewrite (lookup_map_values
             (fun d => Js.get (scale_for cs ns acc d) (shade d))), Hrole.
  simpl. apply (scale_for_tonal cs ns acc def Hcs Hns Hacc).
  now apply (role_shade_is_a_key dark role).
Qed.

Lemma hex_is_truthy (x : string) :
  Culori.is_hex x = true -> Js.truthy (Js.Str x) = true.
Proof. now destruct x. Qed.

Section Pipeline.

Hypothesis parse_accepts_hex :
  forall hex, Culori.is_hex hex = true -> parse hex <> None.
Hypothesis formatHex_is_hex :
  forall col, Culori.is_hex (formatHex col) = true.
Hypothesis ditto_generates :
  forall hex, Culori.is_hex hex = true ->
    exists scale, ditto_generate hex = Js.Ok scale /\ full_ramp scale.

(** X14.  With collaborators that meet their contracts the whole pipeline
    succeeds on every hex colour: the tokens are the roles of the selected
    table, the audit has the six base entries in light mode and eight in
    dark mode, and the single scheme leaves the secondary scale absent. *)
Corollary generatePalette_shape (primaryHex scheme : string) (dark : bool) :
  Culori.is_hex primaryHex = true ->
  exists p,
    generatePalette primaryHex scheme dark = Js.Ok p /\
    Js.keys (tokens p) = Js.keys (roles_of dark) /\
    Js.keys (wcag p) = (if dark then dark_keys else base_keys) /\
    (secondaryScale p = None <-> scheme = "single").
Proof.
  intros Hhex.
  destruct (generateColorScale_tonal formatHex_is_hex ditto_generates
              primaryHex Hhex) as (cs & Hcs & Tcs).
  destruct (generateNeutralScale_tonal parse_accepts_hex formatHex_is_hex
              ditto_generates primaryHex Hhex) as (ns & Hns & Tns).
  assert (Hss : exists ss,
             generateSecondaryScale primaryHex scheme = Js.Ok ss /\
             tonal_scale (accent_of cs ss) /\
             (ss = None <-> scheme = "single")).
  { destruct (generateSecondaryScale_tonal parse_accepts_hex formatHex_is_hex
                ditto_generates primaryHex scheme Hhex)
      as [[Hs Hnone] | [Hs (m & Hsome & Tm)]].
    - exists None. split; [exact Hnone|]. split; [exact Tcs|].
      split; trivial.
    - exists (Some m). split; [exact Hsome|]. split; [exact Tm|].
      split; [discriminate | contradiction]. }
  destruct Hss as (ss & Hss & Tacc & Hsingle).
  unfold generatePalette. rewrite Hcs, Hns, Hss. simpl.
  rewrite resolveTokens_objects. simpl.
  set (tk := map _ (roles_of dark)).
  assert (Hhexes : forall role def,
             Js.lookup (roles_of dark) role = Some def ->
             exists x, Js.get tk role = Js.Str x /\ Culori.is_hex x = true)
    by (intros; now apply resolved_token_is_hex with (def := def)).
  assert (Hbase : forall role, In role base_roles -> bound_to_string tk role).
  { intros role Hin.
    assert (Hdef : exists def, Js.lookup (roles_of dark) role = Some def).
    { simpl in Hin. destruct dark;
        repeat (destruct Hin as [<- | Hin]; [eexists; reflexivity|]);
        contradiction. }
    destruct Hdef as [def Hdef].
    destruct (Hhexes role def Hdef) as (x & Hx & _). now exists x. }
  rewrite (checkWCAG_strings tk Hbase). simpl.
  eexists. split; [reflexivity|]. simpl. repeat split; trivial.
  - unfold tk. apply (keys_map_values
      (fun d => Js.get (scale_for cs ns (accent_of cs ss) d) (shade d))).
  - transitivity (map pair_key (wcag_pairs tk));
      [unfold Js.keys; now rewrite map_map|].
    rewrite wcag_pairs_cases. destruct dark.
    + destruct (Hhexes "primary-text" (Role "color" "400") eq_refl)
        as (x & Hx & Hxhex).
      now rewrite Hx, (hex_is_truthy x Hxhex).
    + reflexivity.
  - apply Hsingle.
  - apply Hsingle.
Qed.

End Pipeline.

(* ================================================================== *)
(** ** Further properties: failures, edge cases and composition        *)
(* ================================================================== *)

(** *** Loops and completions *)

Lemma bind_ok_inv {A B} (m : Js.completion A) (k : A -> Js.completion B) (b : B) :
  Js.bind m k = Js.Ok b -> exists a, m = Js.Ok a /\ k a = Js.Ok b.
Proof. destruct m as [a|e]; simpl; [eauto | discriminate]. Qed.

(** A loop that completes normally ran its body normally on every element. *)
Lemma for_of_ok_all {A S} (body : S -> A -> Js.completion S) (xs : list A) :
  forall s s',
    Js.for_of xs body s = Js.Ok s' ->
    forall x, In x xs -> exists s1 s2, body s1 x = Js.Ok s2.
Proof.
  induction xs as [|y xs IH]; intros s s' Hloop x Hin; [contradiction|].
  simpl in Hloop. apply bind_ok_inv in Hloop. destruct Hloop as (s1 & Hy & Hrest).
  destruct Hin as [<- | Hin]; [eauto | exact (IH _ _ Hrest x Hin)].
Qed.

(** A loop that throws relays the exception of one of its iterations. *)
Lemma for_of_throw {A S} (body : S -> A -> Js.completion S) (xs : list A) :
  forall s e,
    Js.for_of xs body s = Js.Throw e ->
    exists x s1, In x xs /\ body s1 x = Js.Throw e.
Proof.
  induction xs as [|y xs IH]; intros s e Hloop; [discriminate|].
  simpl in Hloop. destruct (body s y) as [s1|e1] eqn:Hy; simpl in Hloop.
  - destruct (IH _ _ Hloop) as (x & s2 & Hin & Hx). exists x, s2. simpl. auto.
  - injection Hloop as <-. exists y, s. simpl. auto.
Qed.

(** *** The role resolver: failures and the reach of the secondary scale *)

(** X1.  The resolver throws exactly when the colour scale or the neutral
    scale is [null], and then a [TypeError]; a [null] secondary scale never
    makes it fail. *)
Theorem resolveTokens_fails_iff
    (colorScale neutralScale secondaryScale : option hexmap) (dark : bool) :
  (Js.is_ok (resolveTokens colorScale neutralScale secondaryScale dark) = false
   <-> colorScale = None \/ neutralScale = None) /\
  (forall e,
     resolveTokens colorScale neutralScale secondaryScale dark = Js.Throw e ->
     e = Js.TypeError).
Proof.
  destruct colorScale as [cs|], neutralScale as [ns|].
  - rewrite resolveTokens_objects. simpl. split.
    + split; [discriminate | intros [H | H]; discriminate].
    + discriminate.
  - assert (H : resolveTokens (Some cs) None secondaryScale dark
                = Js.Throw Js.TypeError)
      by (destruct dark; reflexivity).
    rewrite H. split; [split; [now right | reflexivity] | congruence].
  - assert (H : resolveTokens None (Some ns) secondaryScale dark
                = Js.Throw Js.TypeError)
      by (destruct secondaryScale, dark; reflexivity).
    rewrite H. split; [split; [now left | reflexivity] | congruence].
  - assert (H : resolveTokens None None secondaryScale dark
                = Js.Throw Js.TypeError)
      by (destruct dark; reflexivity).
    rewrite H. split; [split; [now left | reflexivity] | congruence].
Qed.

(** Only the role [secondary] is accent-sourced, in both tables. *)
Definition accent_is_secondary (e : string * roledef) : bool :=
  implb (String.eqb (source (snd e)) "accent") (String.eqb (fst e) "secondary").

Lemma accent_role_is_secondary (dark : bool) (role : string) (def : roledef) :
  Js.lookup (roles_of dark) role = Some def ->
  source def = "accent" -> role = "secondary".
Proof.
  intros H Hsrc. apply lookup_in in H.
  assert (Hall : forallb accent_is_secondary (roles_of dark) = true)
    by (destruct dark; reflexivity).
  rewrite forallb_forall in Hall. specialize (Hall _ H).
  unfold accent_is_secondary in Hall. simpl in Hall.
  rewrite Hsrc in Hall. simpl in Hall. now apply String.eqb_eq in Hall.
Qed.

(** X2.  With a secondary scale present the [secondary] token is read from
    it (shade 200 in light mode, 800 in dark mode), and no other token
    depends on the secondary scale at all. *)
Theorem resolveTokens_secondary_reach
    (cs ns sec : hexmap) (other : option hexmap) (dark : bool) :
  exists tk tk',
    resolveTokens (Some cs) (Some ns) (Some sec) dark = Js.Ok tk /\
    resolveTokens (Some cs) (Some ns) other dark = Js.Ok tk' /\
    Js.get tk "secondary" = Js.get sec (if dark then "800" else "200") /\
    forall role, role <> "secondary" -> Js.get tk role = Js.get tk' role.
Proof.
  do 2 eexists. split; [apply resolveTokens_objects|].
  split; [apply resolveTokens_objects|]. split.
  - destruct dark; reflexivity.
  - intros role Hrole. unfold Js.get.
    rewrite (lookup_map_values
               (fun d => Js.get (scale_for cs ns (accent_of cs (Some sec)) d)
                           (shade d))),
            (lookup_map_values
               (fun d => Js.get (scale_for cs ns (accent_of cs other) d)
                           (shade d))).
    destruct (Js.lookup (roles_of dark) role) as [def|] eqn:Hdef; [|reflexivity].
    simpl. unfold scale_for.
    destruct (String.eqb (source def) "neutral"); [reflexivity|].
    destruct (String.eqb (source def) "accent") eqn:Hacc; [|reflexivity].
    apply String.eqb_eq in Hacc.
    now apply (accent_role_is_secondary dark role def Hdef) in Hacc.
Qed.

(** *** Scale generation: unparseable input and falsy hues *)

(** X4.  The single scheme returns [null] without looking at the colour,
    even one that does not parse; every other scheme throws a [TypeError]
    on an unparseable colour, before any scale is synthesised. *)
Theorem generateSecondaryScale_unparseable (primaryHex : string) :
  generateSecondaryScale primaryHex "single" = Js.Ok None /\
  (parse primaryHex = None ->
   forall scheme, scheme <> "single" ->
     generateSecondaryScale primaryHex scheme = Js.Throw Js.TypeError).
Proof.
  split; [reflexivity|].
  intros Hparse scheme Hs. unfold generateSecondaryScale, oklch_parse.
  apply String.eqb_neq in Hs. rewrite Hs, Hparse. reflexivity.
Qed.

(** A hue that [||] replaces by 0: [undefined], NaN, or a zero. *)
Definition hue_is_falsy (hue : option Js.number) : bool :=
  match hue with
  | None => true
  | Some x => is_nan x || is_zero x
  end.

(** X5.  When the primary's hue is [undefined], NaN or zero the secondary
    seed's hue is exactly the shift: 40 for the analogous scheme and 180
    for the complementary one. *)
Theorem generateSecondaryScale_falsy_hue (primaryHex : string) (col : parsed) :
  parse primaryHex = Some col ->
  hue_is_falsy (Culori.h (oklch col)) = true ->
  generateSecondaryScale primaryHex "analogous" =
    synthesize (Culori.Oklch (Culori.l (oklch col))
                  (Culori.c (oklch col) * 0.85) (Some 40)) /\
  generateSecondaryScale primaryHex "complementary" =
    synthesize (Culori.Oklch (Culori.l (oklch col))
                  (Culori.c (oklch col) * 0.85) (Some 180)).
Proof.
  intros Hparse Hfalsy.
  assert (Hz : Js.or_zero (Culori.h (oklch col)) = 0).
  { unfold Js.or_zero, hue_is_falsy in *.
    destruct (Culori.h (oklch col)) as [x|]; [now rewrite Hfalsy | reflexivity]. }
  unfold generateSecondaryScale, oklch_parse, synthesize.
  rewrite Hparse. simpl. rewrite Hz. split; reflexivity.
Qed.

(** *** The neutral seed: a capped chroma *)

Lemma not_ltb_leb (x y : Js.number) :
  is_nan x = false -> is_nan y = false ->
  (y <? x) = false -> (x <=? y) = true.
Proof.
  intros Hx Hy. rewrite ltb_spec, leb_spec. unfold SFltb, SFleb.
  pose proof (SFcompare_converse (Prim2SF x) (Prim2SF y)) as H.
  destruct (SFcompare (Prim2SF x) (Prim2SF y)) as [[| |]|]; trivial.
  - rewrite H. discriminate.
  - destruct H as [H | H]; apply is_nan_spec in H; congruence.
Qed.

Lemma ltb_irrefl (x : Js.number) : (x <? x) = false.
Proof.
  destruct (x <? x) eqn:H; [|reflexivity].
  pose proof (ltb_asym x x H). congruence.
Qed.

(** On two numbers [Math.min] is a number below both. *)
Lemma Math_min_below (x y : Js.number) :
  is_nan x = false -> is_nan y = false ->
  is_nan (Js.Math_min x y) = false /\
  (Js.Math_min x y <=? x) = true /\ (Js.Math_min x y <=? y) = true.
Proof.
  intros Hx Hy. unfold Js.Math_min. rewrite Hx, Hy. simpl.
  destruct (x <? y) eqn:Hxy.
  - repeat split; trivial; apply not_ltb_leb; trivial.
    + apply ltb_irrefl.
    + now apply ltb_asym.
  - destruct (y <? x) eqn:Hyx.
    + repeat split; trivial; apply not_ltb_leb; trivial. apply ltb_irrefl.
    + destruct (Js.is_neg_zero x);
        repeat split; trivial; apply not_ltb_leb; trivial; apply ltb_irrefl.
Qed.

Local Open Scope Z_scope.

Lemma shr_nonneg (mrs : shr_record) (e n : Z) :
  0 <= shr_m mrs -> 0 <= shr_m (fst (shr mrs e n)).
Proof.
  intros Hm. destruct n as [|p|p]; simpl; trivial.
  rewrite iter_pos_nat, shr_iter_m by trivial.
  apply Z.div_pos; [trivial | apply Z.pow_pos_nonneg; lia].
Qed.

Lemma shr_fexp_nonneg (m e : Z) (l : location) :
  0 <= m -> 0 <= shr_m (fst (shr_fexp prec emax m e l)).
Proof.
  intros Hm. unfold shr_fexp. apply shr_nonneg.
  now destruct l as [|[| |]].
Qed.

(** Rounding a non-negative mantissa never produces NaN. *)
Lemma binary_round_aux_number (s : bool) (m e : Z) (l : location) :
  0 <= m -> binary_round_aux prec emax s m e l <> S754_nan.
Proof.
  intros Hm. unfold binary_round_aux.
  pose proof (shr_fexp_nonneg m e l Hm) as H1.
  destruct (shr_fexp prec emax m e l) as [mrs' e'] eqn:E1. simpl in H1.
  pose proof (round_nearest_even_bounds (shr_m mrs') (loc_of_shr_record mrs')) as Hr.
  set (k := round_nearest_even (shr_m mrs') (loc_of_shr_record mrs')) in *.
  assert (Hk : 0 <= k) by lia.
  pose proof (shr_fexp_nonneg k e' loc_Exact Hk) as H2.
  destruct (shr_fexp prec emax k e' loc_Exact) as [mrs'' e''] eqn:E2. simpl in H2.
  destruct (shr_m mrs'') as [|p|p]; try discriminate; [|lia].
  destruct (e'' <=? emax - prec); discriminate.
Qed.

Local Close Scope Z_scope.

(** The product of two numbers, one of them finite and non-zero, is a number. *)
Lemma mul_finite_number (x y : Js.number) (s : bool) (m : positive) (e : Z) :
  Prim2SF y = S754_finite s m e ->
  is_nan x = false -> is_nan (x * y) = false.
Proof.
  intros Hy Hx.
  destruct (is_nan (x * y)) eqn:H; [|reflexivity].
  apply is_nan_spec in H. rewrite mul_spec, Hy in H.
  destruct (Prim2SF x) as [sx|sx| |sx mx ex] eqn:Ex; try discriminate H.
  - apply is_nan_spec in Ex. congruence.
  - unfold SF64mul, SFmul in H.
    now apply binary_round_aux_number in H.
Qed.

Lemma Prim2SF_012 :
  Prim2SF 0.12 = S754_finite false 8646911284551352 (-56)%Z.
Proof. reflexivity. Qed.

(** X6.  For a colour that parses, the neutral seed keeps the primary's
    lightness and hue (an [undefined] hue stays [undefined]) and, when the
    primary's chroma is a number, its chroma is a number that exceeds
    neither 0.02 nor 0.12 times that chroma; an unparseable colour throws
    a [TypeError]. *)
Theorem generateNeutralScale_seed (primaryHex : string) :
  match parse primaryHex with
  | None => generateNeutralScale primaryHex = Js.Throw Js.TypeError
  | Some col =>
      exists chroma,
        generateNeutralScale primaryHex =
          (scale <- ditto_generate
                      (formatHex (Culori.Oklch (Culori.l (oklch col)) chroma
                                    (Culori.h (oklch col)))) ;;
           Js.Ok (scaleToHexMap scale)) /\
        (is_nan (Culori.c (oklch col)) = false ->
         is_nan chroma = false /\
         (chroma <=? 0.02) = true /\
         (chroma <=? Culori.c (oklch col) * 0.12) = true)
  end.
Proof.
  unfold generateNeutralScale, oklch_parse.
  destruct (parse primaryHex) as [col|]; [|reflexivity].
  exists (Js.Math_min (Culori.c (oklch col) * 0.12) 0.02).
  split; [reflexivity|].
  intros Hc.
  pose proof (mul_finite_number (Culori.c (oklch col)) 0.12 _ _ _ Prim2SF_012 Hc)
    as Hprod.
  destruct (Math_min_below (Culori.c (oklch col) * 0.12) 0.02 Hprod eq_refl)
    as (H1 & H2 & H3).
  auto.
Qed.

(** *** The contrast auditor: failures and what it looks at *)

Lemma contrastRatio_ok_strings (a b : Js.value) (r : Js.number) :
  contrastRatio a b = Js.Ok r ->
  (exists x, a = Js.Str x) /\ (exists y, b = Js.Str y).
Proof.
  unfold contrastRatio.
  destruct a as [|x], b as [|y]; simpl; intros H; try discriminate H. eauto.
Qed.

Lemma contrastRatio_throws_TypeError (a b : Js.value) (e : Js.error) :
  contrastRatio a b = Js.Throw e -> e = Js.TypeError.
Proof.
  unfold contrastRatio.
  destruct a as [|x], b as [|y]; simpl; intros H;
    try discriminate H; congruence.
Qed.

Lemma base_role_is_audited (tk : hexmap) (role : string) :
  In role base_roles ->
  exists pair, In pair (wcag_pairs tk) /\ (fst pair = role \/ snd pair = role).
Proof.
  intros H. unfold wcag_pairs. simpl in H.
  destruct H as [<- | [<- | [<- | [<- | [<- | []]]]]].
  - exists ("text", "bg"). split; [apply in_or_app; left; simpl|]; auto.
  - exists ("text-muted", "bg"). split; [apply in_or_app; left; simpl|]; auto.
  - exists ("primary", "bg"). split; [apply in_or_app; left; simpl|]; auto 10.
  - exists ("text", "bg"). split; [apply in_or_app; left; simpl|]; auto.
  - exists ("text", "surface"). split; [apply in_or_app; left; simpl|]; auto.
Qed.

(** An audit that completes found every base role bound to a string. *)
Lemma checkWCAG_ok_base (tk : hexmap) (w : Js.object entry) :
  checkWCAG tk = Js.Ok w ->
  forall role, In role base_roles -> bound_to_string tk role.
Proof.
  intros Hw role Hrole.
  destruct (base_role_is_audited tk role Hrole) as (pair & Hin & Hside).
  destruct (for_of_ok_all (check_pair tk) (wcag_pairs tk) [] w Hw pair Hin)
    as (w1 & w2 & Hpair).
  unfold check_pair in Hpair. apply bind_ok_inv in Hpair.
  destruct Hpair as (r & Hr & _).
  apply contrastRatio_ok_strings in Hr. destruct Hr as [Hfst Hsnd].
  destruct Hside as [<- | <-]; assumption.
Qed.

(** X7.  The audit completes exactly when [text], [text-muted], [primary],
    [bg] and [surface] are all bound to strings; if one of them is missing
    or [undefined] it throws, and what it throws is a [TypeError]. *)
Theorem checkWCAG_fails_iff (tk : hexmap) :
  (Js.is_ok (checkWCAG tk) = true
   <-> forall role, In role base_roles -> bound_to_string tk role) /\
  (forall e, checkWCAG tk = Js.Throw e -> e = Js.TypeError).
Proof.
  split; [split|].
  - intros Hok role Hrole.
    destruct (checkWCAG tk) as [w|e] eqn:Hw; [|discriminate].
    exact (checkWCAG_ok_base tk w Hw role Hrole).
  - intros Hbase. now rewrite (checkWCAG_strings tk Hbase).
  - intros e Hthrow.
    destruct (for_of_throw (check_pair tk) (wcag_pairs tk) [] e Hthrow)
      as (pair & w1 & _ & Hpair).
    unfold check_pair in Hpair.
    destruct (contrastRatio (Js.get tk (fst pair)) (Js.get tk (snd pair)))
      as [r|e'] eqn:Hr; [discriminate|].
    simpl in Hpair. injection Hpair as <-.
    now apply contrastRatio_throws_TypeError in Hr.
Qed.

Lemma checkWCAG_keys (tk : hexmap) (w : Js.object entry) :
  (forall role, In role base_roles -> bound_to_string tk role) ->
  checkWCAG tk = Js.Ok w ->
  Js.keys w = (if Js.truthy (Js.get tk "primary-text")
               then dark_keys else base_keys).
Proof.
  intros Hbase Hw. rewrite (checkWCAG_strings tk Hbase) in Hw.
  assert (Hmap : w = map (fun pair => (pair_key pair,
                                       wcag_entry (pair_ratio tk pair)))
                       (wcag_pairs tk)) by congruence.
  rewrite Hmap, <- wcag_pairs_cases. unfold Js.keys. now rewrite map_map.
Qed.

(** X8.  Whether [primary-text] is audited is decided by truthiness: the
    audit has the eight dark keys when [tokens["primary-text"]] is a
    non-empty string and the six base keys otherwise, also when the role
    is present but bound to [undefined] or to the empty string. *)
Theorem checkWCAG_primary_text_truthiness (tk : hexmap) :
  (forall role, In role base_roles -> bound_to_string tk role) ->
  exists w,
    checkWCAG tk = Js.Ok w /\
    Js.keys w = (if Js.truthy (Js.get tk "primary-text")
                 then dark_keys else base_keys).
Proof.
  intros Hbase.
  destruct (checkWCAG tk) as [w|e] eqn:Hw.
  - exists w. split; [reflexivity | now apply checkWCAG_keys].
  - now rewrite (checkWCAG_strings tk Hbase) in Hw.
Qed.

Definition audited_roles : list string := "primary-text" :: base_roles.

(** X9.  The audit reads the six audited roles and nothing else: two
    token sets that agree on them (whatever they hold for [border],
    [secondary] or any other key) get the same audit, or the same
    exception. *)
Theorem checkWCAG_reads_audited_roles_only (tk tk' : hexmap) :
  (forall role, In role audited_roles -> Js.get tk role = Js.get tk' role) ->
  checkWCAG tk = checkWCAG tk'.
Proof.
  intros Hsame. unfold checkWCAG.
  assert (Hpairs : wcag_pairs tk = wcag_pairs tk').
  { unfold wcag_pairs. rewrite (Hsame "primary-text"); [reflexivity|].
    now left. }
  rewrite <- Hpairs. apply for_of_ext.
  intros w pair Hin. unfold check_pair.
  apply wcag_pairs_roles in Hin. destruct Hin as [Hfst Hsnd].
  rewrite (Hsame (fst pair)), (Hsame (snd pair)); trivial.
  - now right.
  - destruct Hfst as [Hfst | [-> _]]; [now right | now left].
Qed.

(** *** Identical colours *)

Definition finite_nonzero (x : Js.number) : bool :=
  match Prim2SF x with
  | S754_finite _ _ _ => true
  | _ => false
  end.

Local Open Scope Z_scope.

Lemma div_eucl_multiple (m : positive) (k : Z) :
  Z.div_eucl (Z.pos m * k) (Z.pos m) = (k, 0).
Proof.
  pose proof (Z.div_mul k (Z.pos m)) as Hq.
  pose proof (Z.mod_mul k (Z.pos m)) as Hr.
  rewrite (Z.mul_comm (Z.pos m) k).
  unfold Z.div, Z.modulo in Hq, Hr.
  destruct (Z.div_eucl (k * Z.pos m) (Z.pos m)) as [q r].
  rewrite Hq, Hr by discriminate. reflexivity.
Qed.

(** A finite non-zero number divided by itself is exactly 1. *)
Lemma div_self (x : Js.number) :
  finite_nonzero x = true -> (x / x)%float = 1%float.
Proof.
  unfold finite_nonzero. intros Hx.
  apply Prim2SF_inj. rewrite div_spec.
  destruct (Prim2SF x) as [s|s| |s m e]; try discriminate Hx.
  unfold SF64div, SFdiv, SFdiv_core_binary.
  replace (Zdigits2 (Z.pos m) + e - (Zdigits2 (Z.pos m) + e)) with 0 by lia.
  replace (e - e) with 0 by lia.
  change (Z.min (fexp prec emax 0) 0) with (-53).
  change (0 - -53) with 53.
  rewrite Z.shiftl_mul_pow2 by lia.
  rewrite div_eucl_multiple.
  replace (xorb s s) with false by now destruct s.
  replace (new_location (Z.pos m) 0) with loc_Exact
    by (unfold new_location; now destruct (Z.even (Z.pos m))).
  vm_compute. reflexivity.
Qed.

Local Close Scope Z_scope.

Lemma add_nan_l (x y : Js.number) : is_nan x = true -> is_nan (x + y) = true.
Proof.
  intros H. apply is_nan_spec in H. apply is_nan_spec.
  rewrite add_spec, H. reflexivity.
Qed.

Lemma Math_max_self (x : Js.number) : is_nan x = false -> Js.Math_max x x = x.
Proof.
  intros H. unfold Js.Math_max. rewrite H, ltb_irrefl. simpl.
  now destruct (Js.is_neg_zero x).
Qed.

Lemma Math_min_self (x : Js.number) : is_nan x = false -> Js.Math_min x x = x.
Proof.
  intros H. unfold Js.Math_min. rewrite H, ltb_irrefl. simpl.
  now destruct (Js.is_neg_zero x).
Qed.

(** X10.  A colour against itself has contrast exactly 1, for every string
    whose luminance plus 0.05 is a finite non-zero number (it is unless
    [Math.pow] returns NaN or an infinity). *)
Theorem contrastRatio_self (hex : string) (lum : Js.number) :
  relativeLuminance (Js.Str hex) = Js.Ok lum ->
  finite_nonzero (lum + 0.05) = true ->
  contrastRatio (Js.Str hex) (Js.Str hex) = Js.Ok 1.
Proof.
  intros Hlum Hfin. unfold contrastRatio. rewrite Hlum. simpl.
  assert (Hnan : is_nan lum = false).
  { destruct (is_nan lum) eqn:E; [|reflexivity].
    apply (add_nan_l lum 0.05), is_nan_spec in E.
    unfold finite_nonzero in Hfin. rewrite E in Hfin. discriminate. }
  rewrite (Math_max_self lum Hnan), (Math_min_self lum Hnan).
  now rewrite (div_self _ Hfin).
Qed.

(** *** The orchestrator: failures and the palettes it returns *)

Lemma generatePalette_inv (primaryHex scheme : string) (dark : bool) (p : palette) :
  generatePalette primaryHex scheme dark = Js.Ok p ->
  exists cs ns ss tk w,
    generateColorScale primaryHex = Js.Ok cs /\
    generateNeutralScale primaryHex = Js.Ok ns /\
    generateSecondaryScale primaryHex scheme = Js.Ok ss /\
    resolveTokens (Some cs) (Some ns) ss dark = Js.Ok tk /\
    checkWCAG tk = Js.Ok w /\
    p = Palette tk cs ns ss w.
Proof.
  unfold generatePalette. intros H.
  apply bind_ok_inv in H. destruct H as (cs & Hcs & H).
  apply bind_ok_inv in H. destruct H as (ns & Hns & H).
  apply bind_ok_inv in H. destruct H as (ss & Hss & H).
  apply bind_ok_inv in H. destruct H as (tk & Htk & H).
  apply bind_ok_inv in H. destruct H as (w & Hw & H).
  injection H as <-. exists cs, ns, ss, tk, w. auto 10.
Qed.

Lemma generateColorScale_keys (primaryHex : string) (m : hexmap) :
  generateColorScale primaryHex = Js.Ok m -> Js.keys m = SHADE_KEYS.
Proof.
  unfold generateColorScale. intros H.
  apply bind_ok_inv in H. destruct H as (scale & _ & H).
  injection H as <-. apply scaleToHexMap_keys.
Qed.

Lemma generateNeutralScale_keys (primaryHex : string) (m : hexmap) :
  generateNeutralScale primaryHex = Js.Ok m ->
  Js.keys m = SHADE_KEYS /\ parse primaryHex <> None.
Proof.
  unfold generateNeutralScale, oklch_parse. intros H.
  destruct (parse primaryHex) as [col|]; [|discriminate].
  simpl in H. apply bind_ok_inv in H. destruct H as (scale & _ & H).
  injection H as <-. split; [apply scaleToHexMap_keys | discriminate].
Qed.

Lemma generateSecondaryScale_keys (primaryHex scheme : string) (ss : option hexmap) :
  generateSecondaryScale primaryHex scheme = Js.Ok ss ->
  (ss = None <-> scheme = "single") /\
  (forall m, ss = Some m -> Js.keys m = SHADE_KEYS).
Proof.
  unfold generateSecondaryScale. intros H.
  destruct (String.eqb scheme "single") eqn:Hs.
  - apply String.eqb_eq in Hs. injection H as <-.
    split; [tauto | discriminate].
  - apply String.eqb_neq in Hs.
    apply bind_ok_inv in H. destruct H as (col & _ & H).
    apply bind_ok_inv in H. destruct H as (scale & _ & H).
    injection H as <-. split.
    + split; [discriminate | contradiction].
    + intros m [= <-]. apply scaleToHexMap_keys.
Qed.

(** X11.  A primary colour that does not parse never yields a palette:
    the orchestrator relays the exception of the colour-scale synthesis
    when that throws, and throws a [TypeError] otherwise, whatever the
    scheme and the mode. *)
Theorem generatePalette_unparseable (primaryHex scheme : string) (dark : bool) :
  parse primaryHex = None ->
  generatePalette primaryHex scheme dark =
  match ditto_generate primaryHex with
  | Js.Ok _ => Js.Throw Js.TypeError
  | Js.Throw e => Js.Throw e
  end.
Proof.
  intros Hparse.
  unfold generatePalette, generateColorScale, generateNeutralScale, oklch_parse.
  rewrite Hparse. now destruct (ditto_generate primaryHex).
Qed.

(** X12.  Whatever the collaborators do, a palette that is returned has
    the eleven shade keys in each of its scales, no secondary scale
    exactly for the single scheme, the roles of the selected table as its
    tokens, the audited base roles bound to strings, and in light mode the
    six base audit entries; and its colour did parse. *)
Theorem generatePalette_returned_shape
    (primaryHex scheme : string) (dark : bool) (p : palette) :
  generatePalette primaryHex scheme dark = Js.Ok p ->
  parse primaryHex <> None /\
  Js.keys (colorScale p) = SHADE_KEYS /\
  Js.keys (neutralScale p) = SHADE_KEYS /\
  (forall m, secondaryScale p = Some m -> Js.keys m = SHADE_KEYS) /\
  (secondaryScale p = None <-> scheme = "single") /\
  Js.keys (tokens p) = Js.keys (roles_of dark) /\
  (forall role, In role base_roles -> bound_to_string (tokens p) role) /\
  (dark = false -> Js.keys (wcag p) = base_keys).
Proof.
  intros H.
  destruct (generatePalette_inv primaryHex scheme dark p H)
    as (cs & ns & ss & tk & w & Hcs & Hns & Hss & Htk & Hw & ->).
  simpl.
  destruct (generateNeutralScale_keys primaryHex ns Hns) as [Kns Hparse].
  destruct (generateSecondaryScale_keys primaryHex scheme ss Hss) as [Hsingle Kss].
  rewrite resolveTokens_objects in Htk. injection Htk as Htk.
  pose proof (checkWCAG_ok_base tk w Hw) as Hbase.
  repeat split; trivial.
  - now apply (generateColorScale_keys primaryHex).
  - apply Hsingle.
  - apply Hsingle.
  - rewrite <- Htk.
    apply (keys_map_values
             (fun d => Js.get (scale_for cs ns (accent_of cs ss) d) (shade d))).
  - intros ->. rewrite (checkWCAG_keys tk w Hbase Hw), <- Htk. reflexivity.
Qed.

(** X13.  The parts of a returned palette belong together: every token
    is the entry, under its role's shade, of the palette's own neutral,
    colour or secondary scale (the colour scale standing in for an absent
    secondary scale, so that under the single scheme [secondary] is
    [colorScale["200"]] resp. [colorScale["800"]]), and the audit is the
    audit of the palette's own tokens. *)
Theorem generatePalette_parts_agree
    (primaryHex scheme : string) (dark : bool) (p : palette) :
  generatePalette primaryHex scheme dark = Js.Ok p ->
  (forall role def,
     Js.lookup (roles_of dark) role = Some def ->
     Js.get (tokens p) role =
     Js.get (scale_for (colorScale p) (neutralScale p)
               (accent_of (colorScale p) (secondaryScale p)) def)
       (shade def)) /\
  (scheme = "single" ->
   Js.get (tokens p) "secondary" =
   Js.get (colorScale p) (if dark then "800" else "200")) /\
  checkWCAG (tokens p) = Js.Ok (wcag p).
Proof.
  intros H.
  destruct (generatePalette_inv primaryHex scheme dark p H)
    as (cs & ns & ss & tk & w & Hcs & Hns & Hss & Htk & Hw & ->).
  simpl.
  destruct (generateSecondaryScale_keys primaryHex scheme ss Hss) as [Hsingle _].
  rewrite resolveTokens_objects in Htk. injection Htk as Htk.
  split; [|split; [|exact Hw]].
  - intros role def Hrole. rewrite <- Htk. unfold Js.get at 1.
    rewrite (lookup_map_values
               (fun d => Js.get (scale_for cs ns (accent_of cs ss) d) (shade d))),
      Hrole.
    reflexivity.
  - intros Hs. apply Hsingle in Hs. subst ss. rewrite <- Htk.
    destruct dark; reflexivity.
Qed.

(** *** Where the linear branch ends *)

Definition linear_branch_checked (n : nat) : bool :=
  Bool.eqb (spec_channel (Z.of_nat n) <=? 0.03928) (Nat.leb n 10).

Lemma all_linear_branches_checked :
  forallb linear_branch_checked (seq 0 256) = true.
Proof. vm_compute. reflexivity. Qed.

(** X15.  On the 256 channel values the threshold 0.03928 separates 10
    from 11: channels 0 to 10 are linearised by the division by 12.92,
    without any call to [Math.pow], and channels 11 to 255 by the power
    law. *)
Theorem toLinear_on_channels (n : Z) :
  (0 <= n <= 255)%Z ->
  toLinear (spec_channel n) =
  if (n <=? 10)%Z then spec_channel n / 12.92
  else Math_pow ((spec_channel n + 0.055) / 1.055) 2.4.
Proof.
  intros Hn. pose proof all_linear_branches_checked as Hall.
  rewrite forallb_forall in Hall.
  specialize (Hall (Z.to_nat n)).
  unfold linear_branch_checked in Hall.
  rewrite Z2Nat.id in Hall by lia.
  assert (Hin : In (Z.to_nat n) (seq 0 256)) by (apply in_seq; lia).
  apply Hall, Bool.eqb_prop in Hin.
  unfold toLinear. rewrite Hin.
  destruct (Z.leb_spec n 10) as [Hle | Hgt].
  - replace (Nat.leb (Z.to_nat n) 10) with true
      by (symmetry; apply Nat.leb_le; lia).
    reflexivity.
  - replace (Nat.leb (Z.to_nat n) 10) with false
      by (symmetry; apply Nat.leb_gt; lia).
    reflexivity.
Qed.

End Core.

(* ================================================================== *)
(** ** The module run on concrete inputs                               *)
(* ================================================================== *)

(** *** The stand-ins meet the collaborators' contracts *)

Lemma is_hex_channels (hex : string) :
  Culori.is_hex hex = true -> Culori.channels hex <> None.
Proof.
  destruct hex as [|c0 rest]; [discriminate|].
  destruct c0 as [[] [] [] [] [] [] [] []]; try discriminate.
  destruct rest as [|r1 [|r2 [|g1 [|g2 [|b1 [|b2 [|]]]]]]]; try discriminate.
  unfold Culori.is_hex, Culori.channels, Culori.byte_of, Culori.is_hex_digit.
  simpl forallb.
  destruct (Js.hex_digit r1), (Js.hex_digit r2), (Js.hex_digit g1),
    (Js.hex_digit g2), (Js.hex_digit b1), (Js.hex_digit b2);
    simpl; congruence.
Qed.

Lemma fake_parse_accepts_hex (hex : string) :
  Culori.is_hex hex = true -> Fake.parse hex <> None.
Proof. exact (is_hex_channels hex). Qed.

Lemma fake_formatHex_is_hex (col : Culori.color) :
  Culori.is_hex (Fake.formatHex col) = true.
Proof.
  unfold Fake.formatHex, Fake.slate. simpl.
  repeat (destruct (_ <=? _); [reflexivity|]). reflexivity.
Qed.

Lemma fake_ditto_generates (hex : string) :
  Culori.is_hex hex = true ->
  exists scale, Fake.ditto_generate hex = Js.Ok scale /\ full_ramp scale.
Proof.
  intros H. exists Fake.ramp. unfold Fake.ditto_generate. rewrite H.
  split; [reflexivity|].
  intros k Hk. simpl in Hk.
  repeat (destruct Hk as [<- | Hk]; [discriminate|]). contradiction.
Qed.

(** *** Runs *)

Example rem_wraps_the_hue : Js.rem (350 + 40) 360 = 30.
Proof. reflexivity. Qed.

Example rem_follows_the_dividend :
  Js.rem (-5.5) 2 = (-1.5) /\ Js.rem 5.5 (-2) = 1.5 /\
  Js.rem (-4) 2 = neg_zero /\ Js.rem 7 infinity = 7 /\
  is_nan (Js.rem 1 0) = true.
Proof. repeat split; reflexivity. Qed.

Example Math_round_ties_upwards :
  Js.Math_round 2.5 = 3 /\ Js.Math_round (-2.5) = -2 /\
  Js.Math_round (-0.2) = neg_zero /\
  Js.Math_round 449.5 = 450 /\ Js.Math_round 449.49999999999994 = 449.
Proof. repeat split; reflexivity. Qed.

Example Math_max_orders_the_zeros :
  Js.Math_max neg_zero 0 = 0 /\ Js.Math_max 0 neg_zero = 0 /\
  Js.Math_min neg_zero 0 = neg_zero /\ Js.Math_min 0 neg_zero = neg_zero /\
  is_nan (Js.Math_max nan 1) = true.
Proof. repeat split; reflexivity. Qed.

Example parseInt16_reads_a_prefix :
  Js.parseInt16 "ff" = 255 /\ Js.parseInt16 "1g" = 1 /\
  Js.parseInt16 " -0x1F" = (-31) /\ is_nan (Js.parseInt16 "g1") = true.
Proof. repeat split; reflexivity. Qed.

Example slices_of_a_hex_colour :
  Js.slice "#6366f1" 1 3 = "63" /\ Js.slice "#6366f1" 3 5 = "66" /\
  Js.slice "#6366f1" 5 7 = "f1" /\ Js.slice "#63" 3 5 = EmptyString.
Proof. repeat split; reflexivity. Qed.

Example achromatic_seed_hue :
  Culori.h (Fake.oklch (128, 128, 128)%Z) = None /\
  Culori.h (spec_secondary_seed (Fake.oklch (128, 128, 128)%Z) 40) = Some 40.
Proof. split; reflexivity. Qed.

Example contrast_below_threshold :
  contrastRatio Fake.pow (Js.Str "#3973dd") (Js.Str "#ffffff")
  = Js.Ok 4.4964447302426658.
Proof. vm_compute. reflexivity. Qed.

Example contrast_black_on_white :
  contrastRatio Fake.pow (Js.Str "#000000") (Js.Str "#ffffff") = Js.Ok 21.
Proof. vm_compute. reflexivity. Qed.

Example light_audit :
  checkWCAG Fake.pow Fake.light_tokens =
  Js.Ok [ ("text/bg", Entry 4.5 false);
          ("text/surface", Entry 4.1 false);
          ("text-muted/bg", Entry 4.76 true);
          ("text-muted/surface", Entry 4.34 false);
          ("primary/bg", Entry 4.76 true);
          ("primary/surface", Entry 4.34 false) ].
Proof. vm_compute. reflexivity. Qed.

(** *** The theorems at concrete inputs *)

(** C1 at [#6366f1], whose stand-in hue is 170. *)
Lemma generateSecondaryScale_seed_witness :
  Fake.parse "#6366f1" = Some (99, 102, 241)%Z /\
  hue_is_number (Culori.h (Fake.oklch (99, 102, 241)%Z)) /\
  generateSecondaryScale Fake.parse Fake.oklch Fake.formatHex
    Fake.ditto_generate "#6366f1" "single" = Js.Ok None /\
  generateSecondaryScale Fake.parse Fake.oklch Fake.formatHex
    Fake.ditto_generate "#6366f1" "analogous" =
    synthesize Fake.formatHex Fake.ditto_generate
      (spec_secondary_seed (Fake.oklch (99, 102, 241)%Z) 40) /\
  generateSecondaryScale Fake.parse Fake.oklch Fake.formatHex
    Fake.ditto_generate "#6366f1" "complementary" =
    synthesize Fake.formatHex Fake.ditto_generate
      (spec_secondary_seed (Fake.oklch (99, 102, 241)%Z) 180).
Proof.
  split; [reflexivity|]. split; [reflexivity|].
  apply (generateSecondaryScale_seed Fake.parse Fake.oklch Fake.formatHex
           Fake.ditto_generate "#6366f1" (99, 102, 241)%Z); reflexivity.
Defined.

(** C2 at a blue on white. *)
Lemma contrastRatio_wcag_witness :
  Culori.channels "#3973dd" = Some (57, 115, 221)%Z /\
  Culori.channels "#ffffff" = Some (255, 255, 255)%Z /\
  contrastRatio Fake.pow (Js.Str "#3973dd") (Js.Str "#ffffff") =
    Js.Ok (spec_contrast (spec_luminance Fake.pow (57, 115, 221)%Z)
             (spec_luminance Fake.pow (255, 255, 255)%Z)) /\
  unit_channels (57, 115, 221)%Z = true /\
  unit_channels (255, 255, 255)%Z = true.
Proof.
  split; [reflexivity|]. split; [reflexivity|].
  apply (contrastRatio_wcag Fake.pow "#3973dd" "#ffffff"); reflexivity.
Defined.

(** C3, refuted as stated: the neutral scale lacks the shade 50 that the
    light table's [bg] reads, yet the resolution completes and binds [bg]
    to [undefined]. *)
Lemma resolveTokens_missing_shade_counterexample :
  Js.lookup LIGHT_ROLES "bg" = Some (Role "neutral" "50") /\
  Js.lookup Fake.sparse_scale "50" = None /\
  exists tk,
    resolveTokens (Some Fake.full_scale) (Some Fake.sparse_scale) None false
      = Js.Ok tk /\
    Js.lookup tk "bg" = Some Js.Undefined.
Proof.
  split; [reflexivity|]. split; [reflexivity|].
  eexists. split; reflexivity.
Qed.

(** The keys the module reads are never inherited ones. *)
Remark module_keys_are_own_keys :
  forall k,
    In k (SHADE_KEYS ++ Js.keys LIGHT_ROLES ++ Js.keys DARK_ROLES ++ dark_keys) ->
    ~ In k Js.prototype_keys.
Proof.
  intros k Hk Hp. simpl in Hk, Hp.
  repeat (destruct Hk as [<- | Hk];
          [repeat (destruct Hp as [Hp | Hp]; [discriminate Hp|]); exact Hp|]).
  exact Hk.
Qed.

(** On the hue-sensitive stand-ins the primary [#6366f1] has hue 170: the
    analogous seed (hue 210) and the complementary seed (hue 350) give
    different scales. *)
Example schemes_on_hued_stand_ins :
  generateSecondaryScale_any Fake.parse Fake.oklch Hued.formatHex
    Hued.ditto_generate "#6366f1" (Js.Any_string "analogous")
    = Js.Ok (Some (Hued.flat "#0000ff")) /\
  generateSecondaryScale_any Fake.parse Fake.oklch Hued.formatHex
    Hued.ditto_generate "#6366f1" (Js.Any_string "complementary")
    = Js.Ok (Some (Hued.flat "#00ff00")) /\
  generateSecondaryScale_any Fake.parse Fake.oklch Hued.formatHex
    Hued.ditto_generate "#6366f1" (Js.Any_string "single")
    = Js.Ok None /\
  Hued.flat "#0000ff" <> Hued.flat "#00ff00".
Proof. repeat split; try reflexivity. discriminate. Qed.

(** C4 at the unknown string ["triadic"] and at [undefined], on stand-ins
    where the shifts 40 and 180 give different scales. *)
Lemma generateSecondaryScale_unrecognized_witness :
  (Js.Any_string "triadic" <> Js.Any_string "single" /\
   Js.Any_string "triadic" <> Js.Any_string "analogous" /\
   generateSecondaryScale_any Fake.parse Fake.oklch Hued.formatHex
     Hued.ditto_generate "#6366f1" (Js.Any_string "triadic")
     = Js.Ok (Some (Hued.flat "#00ff00")) /\
   generateSecondaryScale_any Fake.parse Fake.oklch Hued.formatHex
     Hued.ditto_generate "#6366f1" (Js.Any_string "triadic") =
   generateSecondaryScale Fake.parse Fake.oklch Hued.formatHex
     Hued.ditto_generate "#6366f1" "complementary") /\
  (Js.Any_undefined <> Js.Any_string "single" /\
   Js.Any_undefined <> Js.Any_string "analogous" /\
   generateSecondaryScale_any Fake.parse Fake.oklch Hued.formatHex
     Hued.ditto_generate "#6366f1" Js.Any_undefined =
   generateSecondaryScale Fake.parse Fake.oklch Hued.formatHex
     Hued.ditto_generate "#6366f1" "complementary").
Proof.
  split.
  - split; [discriminate|]. split; [discriminate|].
    split; [reflexivity|].
    apply (generateSecondaryScale_unrecognized Fake.parse Fake.oklch
             Hued.formatHex Hued.ditto_generate "#6366f1"
             (Js.Any_string "triadic")); discriminate.
  - split; [discriminate|]. split; [discriminate|].
    apply (generateSecondaryScale_unrecognized Fake.parse Fake.oklch
             Hued.formatHex Hued.ditto_generate "#6366f1" Js.Any_undefined);
      discriminate.
Defined.

Lemma light_tokens_bound (role : string) :
  In role base_roles -> bound_to_string Fake.light_tokens role.
Proof.
  intros H. simpl in H.
  repeat (destruct H as [<- | H]; [eexists; reflexivity|]). contradiction.
Defined.

Lemma dark_tokens_bound (role : string) :
  In role base_roles -> bound_to_string Fake.dark_tokens role.
Proof.
  intros H. simpl in H.
  repeat (destruct H as [<- | H]; [eexists; reflexivity|]). contradiction.
Defined.

(** C7 on a light token set (six entries) and a dark one (eight). *)
Lemma checkWCAG_entries_witness :
  (Js.lookup Fake.light_tokens "primary-text" = None /\
   exists w, checkWCAG Fake.pow Fake.light_tokens = Js.Ok w /\
             Js.keys w = base_keys /\ List.length w = 6%nat) /\
  (Js.get Fake.dark_tokens "primary-text" = Js.Str "#94a3b8" /\
   exists w, checkWCAG Fake.pow Fake.dark_tokens = Js.Ok w /\
             Js.keys w = dark_keys /\ List.length w = 8%nat).
Proof.
  split; (split; [reflexivity|]).
  - apply (proj1 (checkWCAG_entries Fake.pow Fake.light_tokens
                    light_tokens_bound)).
    reflexivity.
  - apply (proj2 (checkWCAG_entries Fake.pow Fake.dark_tokens
                    dark_tokens_bound) "#94a3b8");
      [reflexivity | discriminate].
Defined.


(** C10 on the light token set: the text/background ratio is about 4.4964,
    reported as 4.5, and the pair does not pass. *)
Lemma checkWCAG_pass_ignores_rounding_witness :
  Js.lookup
    (match checkWCAG Fake.pow Fake.light_tokens with
     | Js.Ok w => w
     | Js.Throw _ => []
     end) "text/bg" = Some (Entry 4.5 false) /\
  exists pair r,
    In pair (wcag_pairs Fake.light_tokens) /\ "text/bg" = pair_key pair /\
    contrastRatio Fake.pow (Js.get Fake.light_tokens (fst pair))
      (Js.get Fake.light_tokens (snd pair)) = Js.Ok r /\
    ratio (Entry 4.5 false) = Js.Math_round (r * 100) / 100 /\
    pass (Entry 4.5 false) = (4.5 <=? r) /\
    ((4.495 <=? r) = true -> (r <? 4.5) = true ->
     ratio (Entry 4.5 false) = 4.5 /\ pass (Entry 4.5 false) = false).
Proof.
  split; [vm_compute; reflexivity|].
  apply (checkWCAG_pass_ignores_rounding Fake.pow Fake.light_tokens
           [ ("text/bg", Entry 4.5 false);
             ("text/surface", Entry 4.1 false);
             ("text-muted/bg", Entry 4.76 true);
             ("text-muted/surface", Entry 4.34 false);
             ("primary/bg", Entry 4.76 true);
             ("primary/surface", Entry 4.34 false) ]
           "text/bg" (Entry 4.5 false));
    vm_compute; reflexivity.
Defined.

(** *** Further runs *)

Module Samples.

(** The light tokens with a [primary-text] bound to the empty string. *)
Definition empty_primary_text : hexmap :=
  ("primary-text", Js.Str EmptyString) :: Fake.light_tokens.

(** The light tokens with another border and no [secondary]. *)
Definition other_border : hexmap :=
  [ ("bg", Js.Str "#ffffff"); ("surface", Js.Str "#f1f5f9");
    ("border", Js.Str "#000000"); ("text-muted", Js.Str "#64748b");
    ("text", Js.Str "#3973dd"); ("primary", Js.Str "#64748b") ].

(** The palette of [#6366f1] under the single scheme, in light mode. *)
Definition single_light : Js.completion palette :=
  generatePalette Fake.parse Fake.oklch Fake.formatHex Fake.ditto_generate
    Fake.pow "#6366f1" "single" false.

Definition single_light_palette : palette :=
  Palette
    [ ("bg", Js.Str "#f8fafc"); ("surface", Js.Str "#f1f5f9");
      ("border", Js.Str "#e2e8f0"); ("text-muted", Js.Str "#64748b");
      ("text", Js.Str "#0f172a"); ("primary", Js.Str "#64748b");
      ("secondary", Js.Str "#e2e8f0") ]
    Fake.full_scale Fake.full_scale None
    [ ("text/bg", Entry 17.06 true); ("text/surface", Entry 16.3 true);
      ("text-muted/bg", Entry 4.55 true);
      ("text-muted/surface", Entry 4.34 false);
      ("primary/bg", Entry 4.55 true);
      ("primary/surface", Entry 4.34 false) ].

End Samples.

Lemma empty_primary_text_bound (role : string) :
  In role base_roles -> bound_to_string Samples.empty_primary_text role.
Proof.
  intros H. simpl in H.
  repeat (destruct H as [<- | H]; [eexists; reflexivity|]). contradiction.
Defined.

Example single_light_run : Samples.single_light = Js.Ok Samples.single_light_palette.
Proof. vm_compute. reflexivity. Qed.

Example neutral_seed_of_a_grey :
  generateNeutralScale Fake.parse Fake.oklch Fake.formatHex Fake.ditto_generate
    "#80808" = Js.Throw Js.TypeError /\
  is_nan (Culori.c (Fake.oklch (99, 102, 241)%Z)) = false /\
  Js.Math_min (Culori.c (Fake.oklch (99, 102, 241)%Z) * 0.12) 0.02 = 0.02.
Proof. repeat split; reflexivity. Qed.

(** X5 on a grey, whose stand-in hue is [undefined]. *)
Lemma generateSecondaryScale_falsy_hue_witness :
  Fake.parse "#808080" = Some (128, 128, 128)%Z /\
  hue_is_falsy (Culori.h (Fake.oklch (128, 128, 128)%Z)) = true /\
  generateSecondaryScale Fake.parse Fake.oklch Fake.formatHex
    Fake.ditto_generate "#808080" "analogous" =
    synthesize Fake.formatHex Fake.ditto_generate
      (Culori.Oklch (Culori.l (Fake.oklch (128, 128, 128)%Z))
         (Culori.c (Fake.oklch (128, 128, 128)%Z) * 0.85) (Some 40)) /\
  generateSecondaryScale Fake.parse Fake.oklch Fake.formatHex
    Fake.ditto_generate "#808080" "complementary" =
    synthesize Fake.formatHex Fake.ditto_generate
      (Culori.Oklch (Culori.l (Fake.oklch (128, 128, 128)%Z))
         (Culori.c (Fake.oklch (128, 128, 128)%Z) * 0.85) (Some 180)).
Proof.
  split; [reflexivity|]. split; [reflexivity|].
  apply (generateSecondaryScale_falsy_hue Fake.parse Fake.oklch Fake.formatHex
           Fake.ditto_generate "#808080" (128, 128, 128)%Z); reflexivity.
Defined.

(** X8 on tokens whose [primary-text] is the empty string: six entries. *)
Lemma checkWCAG_primary_text_truthiness_witness :
  Js.lookup Samples.empty_primary_text "primary-text" = Some (Js.Str EmptyString) /\
  exists w,
    checkWCAG Fake.pow Samples.empty_primary_text = Js.Ok w /\
    Js.keys w = (if Js.truthy (Js.get Samples.empty_primary_text "primary-text")
                 then dark_keys else base_keys).
Proof.
  split; [reflexivity|].
  apply (checkWCAG_primary_text_truthiness Fake.pow Samples.empty_primary_text
           empty_primary_text_bound).
Defined.

Lemma other_border_agrees (role : string) :
  In role audited_roles ->
  Js.get Fake.light_tokens role = Js.get Samples.other_border role.
Proof.
  intros H. simpl in H.
  repeat (destruct H as [<- | H]; [reflexivity|]). contradiction.
Defined.

(** X9 on two token sets that differ in [border] and [secondary] only. *)
Lemma checkWCAG_reads_audited_roles_only_witness :
  Js.get Fake.light_tokens "border" <> Js.get Samples.other_border "border" /\
  Js.get Fake.light_tokens "secondary" <> Js.get Samples.other_border "secondary" /\
  checkWCAG Fake.pow Fake.light_tokens = checkWCAG Fake.pow Samples.other_border.
Proof.
  split; [discriminate|]. split; [discriminate|].
  apply (checkWCAG_reads_audited_roles_only Fake.pow Fake.light_tokens
           Samples.other_border other_border_agrees).
Defined.

(** X10 on a blue. *)
Lemma contrastRatio_self_witness :
  relativeLuminance Fake.pow (Js.Str "#3973dd") = Js.Ok 0.18351782641467787 /\
  finite_nonzero (0.18351782641467787 + 0.05) = true /\
  contrastRatio Fake.pow (Js.Str "#3973dd") (Js.Str "#3973dd") = Js.Ok 1.
Proof.
  split; [vm_compute; reflexivity|]. split; [reflexivity|].
  apply (contrastRatio_self Fake.pow "#3973dd" 0.18351782641467787);
    [vm_compute; reflexivity | reflexivity].
Defined.

(** X11 on a string that is no colour. *)
Lemma generatePalette_unparseable_witness :
  Fake.parse "nope" = None /\
  generatePalette Fake.parse Fake.oklch Fake.formatHex Fake.ditto_generate
    Fake.pow "nope" "analogous" true =
  match Fake.ditto_generate "nope" with
  | Js.Ok _ => Js.Throw Js.TypeError
  | Js.Throw e => Js.Throw e
  end.
Proof.
  split; [reflexivity|].
  apply (generatePalette_unparseable Fake.parse Fake.oklch Fake.formatHex
           Fake.ditto_generate Fake.pow "nope" "analogous" true).
  reflexivity.
Defined.

(** X12 on the palette of [#6366f1]. *)
Lemma generatePalette_returned_shape_witness :
  Samples.single_light = Js.Ok Samples.single_light_palette /\
  Fake.parse "#6366f1" <> None /\
  Js.keys (colorScale Samples.single_light_palette) = SHADE_KEYS /\
  Js.keys (neutralScale Samples.single_light_palette) = SHADE_KEYS /\
  (forall m, secondaryScale Samples.single_light_palette = Some m ->
             Js.keys m = SHADE_KEYS) /\
  (secondaryScale Samples.single_light_palette = None <-> "single" = "single") /\
  Js.keys (tokens Samples.single_light_palette) = Js.keys (roles_of false) /\
  (forall role, In role base_roles ->
                bound_to_string (tokens Samples.single_light_palette) role) /\
  (false = false -> Js.keys (wcag Samples.single_light_palette) = base_keys).
Proof.
  split; [vm_compute; reflexivity|].
  apply (generatePalette_returned_shape Fake.parse Fake.oklch Fake.formatHex
           Fake.ditto_generate Fake.pow "#6366f1" "single" false
           Samples.single_light_palette).
  vm_compute. reflexivity.
Defined.

(** X13 on the palette of [#6366f1]. *)
Lemma generatePalette_parts_agree_witness :
  Samples.single_light = Js.Ok Samples.single_light_palette /\
  (forall role def,
     Js.lookup (roles_of false) role = Some def ->
     Js.get (tokens Samples.single_light_palette) role =
     Js.get (scale_for (colorScale Samples.single_light_palette)
               (neutralScale Samples.single_light_palette)
               (accent_of (colorScale Samples.single_light_palette)
                  (secondaryScale Samples.single_light_palette)) def)
       (shade def)) /\
  ("single" = "single" ->
   Js.get (tokens Samples.single_light_palette) "secondary" =
   Js.get (colorScale Samples.single_light_palette) "200") /\
  checkWCAG Fake.pow (tokens Samples.single_light_palette) =
    Js.Ok (wcag Samples.single_light_palette).
Proof.
  split; [vm_compute; reflexivity|].
  apply (generatePalette_parts_agree Fake.parse Fake.oklch Fake.formatHex
           Fake.ditto_generate Fake.pow "#6366f1" "single" false
           Samples.single_light_palette).
  vm_compute. reflexivity.
Defined.

(** X14 on the stand-ins, for [#6366f1] under the analogous scheme in dark
    mode. *)
Lemma generatePalette_shape_witness :
  Culori.is_hex "#6366f1" = true /\
  exists p,
    generatePalette Fake.parse Fake.oklch Fake.formatHex Fake.ditto_generate
      Fake.pow "#6366f1" "analogous" true = Js.Ok p /\
    Js.keys (tokens p) = Js.keys (roles_of true) /\
    Js.keys (wcag p) = dark_keys /\
    (secondaryScale p = None <-> "analogous" = "single").
Proof.
  split; [reflexivity|].
  apply (generatePalette_shape Fake.parse Fake.oklch Fake.formatHex
           Fake.ditto_generate Fake.pow fake_parse_accepts_hex
           fake_formatHex_is_hex fake_ditto_generates
           "#6366f1" "analogous" true).
  reflexivity.
Defined.

(** X15 on the channel 10, the last of the linear branch. *)
Lemma toLinear_on_channels_witness :
  (0 <= 10 <= 255)%Z /\
  toLinear Fake.pow (spec_channel 10) =
  (if (10 <=? 10)%Z then spec_channel 10 / 12.92
   else Fake.pow ((spec_channel 10 + 0.055) / 1.055) 2.4).
Proof.
  split; [lia|].
  apply (toLinear_on_channels Fake.pow 10). lia.
Defined.
